(** * Canvas Studio: the drawing / history / layer engine of [src/app/page.tsx]

    A shallow embedding of the [DrawingApp] component.  The React state cells
    and the DOM canvases form an explicit [World]; every event handler of the
    component is a computation in a small state-and-exception monad over that
    world.  A handler reads two kinds of data, and the model keeps them apart:

    - the values of the render it was created in (the closure: [history],
      [historyIndex], [layers], [isDrawing], ...), passed as a [State]
      argument named [r];
    - the live world: the pending React state, changed by the functional
      updaters [setX (fun prev => ...)], and the canvases, changed in place.

    [run h w] runs a handler whose closure is the state currently rendered. *)

From Stdlib Require Import ZArith Lia Bool.
From stdpp Require Import base list strings pretty.

Open Scope Z_scope.

(** ** JavaScript arrays *)

(** [ToIntegerOrInfinity]-relative index of [Array.prototype.slice]. *)
Definition relative_index (len k : Z) : Z :=
  if k <? 0 then Z.max (len + k) 0 else Z.min k len.

(** [l.slice(start, stop)]. *)
Definition slice {A} (l : list A) (start stop : Z) : list A :=
  let len := Z.of_nat (length l) in
  let from := relative_index len start in
  let upto := relative_index len stop in
  take (Z.to_nat (upto - from)) (drop (Z.to_nat from) l).

(** [l[i]]; [None] is [undefined]. *)
Definition at_index {A} (l : list A) (i : Z) : option A :=
  if i <? 0 then None else l !! Z.to_nat i.

(** [l.filter((_, i) => keep i)], the indices counted from [i]. *)
Fixpoint filter_index {A} (keep : Z -> bool) (i : Z) (l : list A) : list A :=
  match l with
  | [] => []
  | a :: l' =>
      if keep i then a :: filter_index keep (i + 1) l'
      else filter_index keep (i + 1) l'
  end.

(** [l.map((a, i) => f a i)], the indices counted from [i]. *)
Fixpoint map_index {A B} (f : A -> Z -> B) (i : Z) (l : list A) : list B :=
  match l with
  | [] => []
  | a :: l' => f a i :: map_index f (i + 1) l'
  end.

(** ** Pixels and bitmaps

    A canvas bitmap holds premultiplied colour: a fully transparent pixel
    carries no colour.  [Clear] is [rgba(0,0,0,0)]; [Paint r g b a] has alpha
    [a] in 1..255. *)

Inductive Pixel : Type :=
  | Clear
  | Paint (r g b : Z) (a : positive).

Definition white : Pixel := Paint 255 255 255 255.   (* "#FFFFFF" *)
Definition black : Pixel := Paint 0 0 0 255.         (* "#000000" *)

(** Porter-Duff "source-over" on 8-bit channels, the default
    [globalCompositeOperation]. *)
Definition source_over (s d : Pixel) : Pixel :=
  match s, d with
  | Clear, _ => d
  | _, Clear => s
  | Paint r g b a, Paint r' g' b' a' =>
      let k := Z.pos a' * (255 - Z.pos a) in
      let ao := Z.pos a * 255 + k in
      let mix c c' := (c * (Z.pos a * 255) + c' * k) / ao in
      Paint (mix r r') (mix g g') (mix b b') (Z.to_pos (ao / 255))
  end.

Record Bitmap : Type := mkBitmap {
  width : Z;
  height : Z;
  pixel : Z -> Z -> Pixel
}.

(** An [ImageData] (from [getImageData]) and a decoded PNG data URL (from
    [toDataURL], lossless) are represented by the bitmap they hold. *)
Abbreviation ImageData := Bitmap (only parsing).
Abbreviation DataURL := Bitmap (only parsing).

Definition inside (b : Bitmap) (u v : Z) : bool :=
  (0 <=? u) && (u <? width b) && (0 <=? v) && (v <? height b).

(** The pixel shown at column [u], row [v]; nothing outside the bitmap. *)
Definition pixelAt (b : Bitmap) (u v : Z) : Pixel :=
  if inside b u v then pixel b u v else Clear.

Definition same_pixels (b1 b2 : Bitmap) : Prop :=
  width b1 = width b2 /\ height b1 = height b2 /\
  forall u v, pixelAt b1 u v = pixelAt b2 u v.

(** A new or resized canvas is transparent black. *)
Definition blank (w h : Z) : Bitmap := mkBitmap w h (fun _ _ => Clear).

Definition in_rect (x0 y0 w h u v : Z) : bool :=
  (x0 <=? u) && (u <? x0 + w) && (y0 <=? v) && (v <? y0 + h).

Definition clear_rect (b : Bitmap) (x0 y0 w h : Z) : Bitmap :=
  mkBitmap (width b) (height b)
    (fun u v => if in_rect x0 y0 w h u v then Clear else pixel b u v).

Definition fill_rect (style : Pixel) (b : Bitmap) (x0 y0 w h : Z) : Bitmap :=
  mkBitmap (width b) (height b)
    (fun u v => if in_rect x0 y0 w h u v
                then source_over style (pixel b u v) else pixel b u v).

(** [drawImage(src, dx, dy)]: the source composited over the destination. *)
Definition draw_image (b src : Bitmap) (dx dy : Z) : Bitmap :=
  mkBitmap (width b) (height b)
    (fun u v => if inside src (u - dx) (v - dy)
                then source_over (pixel src (u - dx) (v - dy)) (pixel b u v)
                else pixel b u v).

(** [putImageData(img, dx, dy)]: the pixels copied, no compositing. *)
Definition put_image_data (b : Bitmap) (img : ImageData) (dx dy : Z) : Bitmap :=
  mkBitmap (width b) (height b)
    (fun u v => if inside img (u - dx) (v - dy)
                then pixel img (u - dx) (v - dy) else pixel b u v).

(** [getImageData(sx, sy, sw, sh)] for a non-empty rectangle. *)
Definition get_image_data (b : Bitmap) (sx sy sw sh : Z) : ImageData :=
  mkBitmap sw sh (fun u v => pixelAt b (sx + u) (sy + v)).

(** ** Paths and the 2D context *)

Record Point : Type := mkPoint { x : Z; y : Z }.

(** The calls that build the current path, in call order. [PArc] keeps the
    square of the radius ([arc] is only called with [Math.sqrt] of it, over
    the full turn [0 .. 2 * Math.PI]). *)
Inductive PathCmd : Type :=
  | PMoveTo (p : Point)
  | PLineTo (p : Point)
  | PRect (x0 y0 w h : Z)
  | PArc (c : Point) (radius_sq : Z).

Inductive LineCap : Type := butt | round_cap.
Inductive LineJoin : Type := miter | round_join.

Record Context2D : Type := mkContext2D {
  fillStyle : Pixel;
  strokeStyle : Pixel;
  lineWidth : Z;
  lineCap : LineCap;
  lineJoin : LineJoin;
  path : list PathCmd
}.

Definition default_context : Context2D :=
  mkContext2D black black 1 butt miter [].

(** A canvas element: its bitmap, its 2D context, and what layout gives it:
    the client size of [parentElement] ([None] when detached) and the origin
    of [getBoundingClientRect()]. *)
Record CanvasElement : Type := mkCanvasElement {
  bitmap : Bitmap;
  context : Context2D;
  parentElement : option (Z * Z);
  rect_left : Z;
  rect_top : Z
}.

(** [document.createElement("canvas")]: 300 x 150, transparent, detached. *)
Definition new_canvas : CanvasElement :=
  mkCanvasElement (blank 300 150) default_context None 0 0.

Definition with_bitmap (f : Bitmap -> Bitmap) (c : CanvasElement) : CanvasElement :=
  mkCanvasElement (f (bitmap c)) (context c) (parentElement c) (rect_left c) (rect_top c).

Definition with_context (f : Context2D -> Context2D) (c : CanvasElement) : CanvasElement :=
  mkCanvasElement (bitmap c) (f (context c)) (parentElement c) (rect_left c) (rect_top c).

(** Assigning [canvas.width] or [canvas.height] (even to the value it has)
    replaces the bitmap by a transparent one and resets the context. *)
Definition assign_width (w : Z) (c : CanvasElement) : CanvasElement :=
  mkCanvasElement (blank w (height (bitmap c))) default_context
    (parentElement c) (rect_left c) (rect_top c).

Definition assign_height (h : Z) (c : CanvasElement) : CanvasElement :=
  mkCanvasElement (blank (width (bitmap c)) h) default_context
    (parentElement c) (rect_left c) (rect_top c).

Definition set_fillStyle (p : Pixel) (k : Context2D) : Context2D :=
  mkContext2D p (strokeStyle k) (lineWidth k) (lineCap k) (lineJoin k) (path k).
Definition set_strokeStyle (p : Pixel) (k : Context2D) : Context2D :=
  mkContext2D (fillStyle k) p (lineWidth k) (lineCap k) (lineJoin k) (path k).
(** Assigning a [lineWidth] that is not positive is ignored. *)
Definition set_lineWidth (n : Z) (k : Context2D) : Context2D :=
  if 0 <? n
  then mkContext2D (fillStyle k) (strokeStyle k) n (lineCap k) (lineJoin k) (path k)
  else k.
Definition set_lineCap (c : LineCap) (k : Context2D) : Context2D :=
  mkContext2D (fillStyle k) (strokeStyle k) (lineWidth k) c (lineJoin k) (path k).
Definition set_lineJoin (j : LineJoin) (k : Context2D) : Context2D :=
  mkContext2D (fillStyle k) (strokeStyle k) (lineWidth k) (lineCap k) j (path k).
Definition set_path (f : list PathCmd -> list PathCmd) (k : Context2D) : Context2D :=
  mkContext2D (fillStyle k) (strokeStyle k) (lineWidth k) (lineCap k) (lineJoin k)
    (f (path k)).

(** ** The component state *)

Inductive DrawingMode : Type := pen | eraser | rectangle | circle | line.

(** [canvas] is a reference into the document: layers share canvases by
    reference (the first layer is given the on-screen canvas itself). *)
Record Layer : Type := mkLayer {
  id : string;
  name : string;
  visible : bool;
  canvas : option nat
}.

(** The [useState] cells of [DrawingApp] that the engine uses. *)
Record State : Type := mkState {
  isDrawing : bool;
  drawingMode : DrawingMode;
  color : Pixel;
  brushSize : Z;
  startPoint : option Point;
  layers : list Layer;
  activeLayerIndex : Z;
  history : list DataURL;
  historyIndex : Z;
  shapePreviewImage : option ImageData
}.

Definition initial_state : State :=
  mkState false pen black 5 None [mkLayer "layer-1" "Layer 1" true None] 0 [] (-1) None.

(** The world: pending React state, [canvasRef.current], and the canvases of
    the document ([allocated] counts the elements created so far). *)
Record World : Type := mkWorld {
  state : State;
  canvasRef : option nat;
  document : nat -> CanvasElement;
  allocated : nat
}.

Definition with_state (f : State -> State) (w : World) : World :=
  mkWorld (f (state w)) (canvasRef w) (document w) (allocated w).

Definition update_canvas (c : nat) (f : CanvasElement -> CanvasElement) (w : World) : World :=
  mkWorld (state w) (canvasRef w)
    (fun c' => if Nat.eqb c' c then f (document w c') else document w c')
    (allocated w).

(** ** Handlers: state that survives an exception *)

Inductive Exception : Type := TypeError | IndexSizeError | InvalidStateError.

Inductive Outcome (A : Type) : Type :=
  | Done (a : A)
  | Thrown (e : Exception).
Arguments Done {A} a.
Arguments Thrown {A} e.

Definition Handler (A : Type) : Type := World -> Outcome A * World.

Definition ret {A} (a : A) : Handler A := fun w => (Done a, w).

Definition throw {A} (e : Exception) : Handler A := fun w => (Thrown e, w).

Definition bind {A B} (m : Handler A) (k : A -> Handler B) : Handler B :=
  fun w =>
    match m w with
    | (Done a, w') => k a w'
    | (Thrown e, w') => (Thrown e, w')
    end.

Declare Scope handler_scope.
Delimit Scope handler_scope with handler.
Bind Scope handler_scope with Handler.
Notation "'let*' v ':=' m 'in' k" := (bind m (fun v => k))
  (at level 10, v name, m at level 100, k at level 200) : handler_scope.
Notation "m >> k" := (bind m (fun _ => k))
  (at level 100, k at level 200, right associativity) : handler_scope.
Open Scope handler_scope.

Definition skip : Handler unit := ret tt.

(** [l.forEach(f)]. *)
Fixpoint forEach {A} (l : list A) (f : A -> Handler unit) : Handler unit :=
  match l with
  | [] => skip
  | a :: l' => f a >> forEach l' f
  end.

(** A handler run with the closure of the current render. *)
Definition run {A} (h : State -> Handler A) (w : World) : Outcome A * World :=
  h (state w) w.

(** *** React state setters *)

Definition modify (f : State -> State) : Handler unit :=
  fun w => (Done tt, with_state f w).

Definition setIsDrawing (b : bool) : Handler unit :=
  modify (fun s => mkState b (drawingMode s) (color s) (brushSize s) (startPoint s)
    (layers s) (activeLayerIndex s) (history s) (historyIndex s) (shapePreviewImage s)).

Definition setStartPoint (p : option Point) : Handler unit :=
  modify (fun s => mkState (isDrawing s) (drawingMode s) (color s) (brushSize s) p
    (layers s) (activeLayerIndex s) (history s) (historyIndex s) (shapePreviewImage s)).

Definition setLayers (f : list Layer -> list Layer) : Handler unit :=
  modify (fun s => mkState (isDrawing s) (drawingMode s) (color s) (brushSize s)
    (startPoint s) (f (layers s)) (activeLayerIndex s) (history s) (historyIndex s)
    (shapePreviewImage s)).

Definition setActiveLayerIndex (f : Z -> Z) : Handler unit :=
  modify (fun s => mkState (isDrawing s) (drawingMode s) (color s) (brushSize s)
    (startPoint s) (layers s) (f (activeLayerIndex s)) (history s) (historyIndex s)
    (shapePreviewImage s)).

Definition setHistory (f : list DataURL -> list DataURL) : Handler unit :=
  modify (fun s => mkState (isDrawing s) (drawingMode s) (color s) (brushSize s)
    (startPoint s) (layers s) (activeLayerIndex s) (f (history s)) (historyIndex s)
    (shapePreviewImage s)).

Definition setHistoryIndex (f : Z -> Z) : Handler unit :=
  modify (fun s => mkState (isDrawing s) (drawingMode s) (color s) (brushSize s)
    (startPoint s) (layers s) (activeLayerIndex s) (history s) (f (historyIndex s))
    (shapePreviewImage s)).

Definition setShapePreviewImage (i : option ImageData) : Handler unit :=
  modify (fun s => mkState (isDrawing s) (drawingMode s) (color s) (brushSize s)
    (startPoint s) (layers s) (activeLayerIndex s) (history s) (historyIndex s) i).

(** *** The DOM *)

Definition canvasRef_current : Handler (option nat) :=
  fun w => (Done (canvasRef w), w).

Definition read (c : nat) : Handler CanvasElement :=
  fun w => (Done (document w c), w).

Definition on_canvas (c : nat) (f : CanvasElement -> CanvasElement) : Handler unit :=
  fun w => (Done tt, update_canvas c f w).

Definition createElement_canvas : Handler nat :=
  fun w => (Done (allocated w),
            mkWorld (state w) (canvasRef w)
              (fun c' => if Nat.eqb c' (allocated w) then new_canvas else document w c')
              (S (allocated w))).

Definition toDataURL (c : nat) : Handler DataURL :=
  let* cv := read c in ret (bitmap cv).

(** [getImageData] throws on an empty source rectangle. *)
Definition getImageData (c : nat) (sx sy sw sh : Z) : Handler ImageData :=
  if (sw =? 0) || (sh =? 0) then throw IndexSizeError
  else let* cv := read c in ret (get_image_data (bitmap cv) sx sy sw sh).

Definition putImageData (c : nat) (img : ImageData) (dx dy : Z) : Handler unit :=
  on_canvas c (with_bitmap (fun b => put_image_data b img dx dy)).

Definition clearRect (c : nat) (x0 y0 w h : Z) : Handler unit :=
  on_canvas c (with_bitmap (fun b => clear_rect b x0 y0 w h)).

Definition fillRect (c : nat) (x0 y0 w h : Z) : Handler unit :=
  on_canvas c (fun cv => with_bitmap (fun b => fill_rect (fillStyle (context cv)) b x0 y0 w h) cv).

(** [drawImage] throws when the source has no pixels. *)
Definition drawImage (c : nat) (src : Bitmap) (dx dy : Z) : Handler unit :=
  if (width src =? 0) || (height src =? 0) then throw InvalidStateError
  else on_canvas c (with_bitmap (fun b => draw_image b src dx dy)).

Definition assign_fillStyle (c : nat) (p : Pixel) : Handler unit :=
  on_canvas c (with_context (set_fillStyle p)).
Definition assign_strokeStyle (c : nat) (p : Pixel) : Handler unit :=
  on_canvas c (with_context (set_strokeStyle p)).
Definition assign_lineWidth (c : nat) (n : Z) : Handler unit :=
  on_canvas c (with_context (set_lineWidth n)).
Definition assign_lineCap (c : nat) (k : LineCap) : Handler unit :=
  on_canvas c (with_context (set_lineCap k)).
Definition assign_lineJoin (c : nat) (j : LineJoin) : Handler unit :=
  on_canvas c (with_context (set_lineJoin j)).

Definition beginPath (c : nat) : Handler unit :=
  on_canvas c (with_context (set_path (fun _ => []))).
Definition moveTo (c : nat) (p : Point) : Handler unit :=
  on_canvas c (with_context (set_path (fun cmds => cmds ++ [PMoveTo p]))).
Definition lineTo (c : nat) (p : Point) : Handler unit :=
  on_canvas c (with_context (set_path (fun cmds => cmds ++ [PLineTo p]))).
Definition rect (c : nat) (x0 y0 w h : Z) : Handler unit :=
  on_canvas c (with_context (set_path (fun cmds => cmds ++ [PRect x0 y0 w h]))).
Definition arc (c : nat) (p : Point) (radius_sq : Z) : Handler unit :=
  on_canvas c (with_context (set_path (fun cmds => cmds ++ [PArc p radius_sq]))).

(** ** History: [saveToHistory], [handleUndo], [handleRedo] *)

Definition saveToHistory (r : State) : Handler unit :=
  let* current := canvasRef_current in
  match current with
  | Some c =>
      let* dataURL := toDataURL c in
      (if historyIndex r <? Z.of_nat (length (history r)) - 1
       then setHistory (fun prev => slice prev 0 (historyIndex r + 1))
       else skip) >>
      setHistory (fun prev => prev ++ [dataURL]) >>
      setHistoryIndex (fun prev => prev + 1)
  | None => skip
  end.

(** What [img.onload] does with the decoded entry. *)
Definition onload (img : Bitmap) : Handler unit :=
  let* current := canvasRef_current in
  match current with
  | Some c =>
      let* cv := read c in
      clearRect c 0 0 (width (bitmap cv)) (height (bitmap cv)) >>
      drawImage c img 0 0
  | None => skip
  end.

(** [handleUndo] and [handleRedo] return the value they assign to [img.src]:
    [None] when no image is created, [Some (history[newIndex])] otherwise
    (the inner [None] being [undefined]). *)
Definition handleUndo (r : State) : Handler (option (option DataURL)) :=
  if 0 <? historyIndex r then
    let newIndex := historyIndex r - 1 in
    setHistoryIndex (fun _ => newIndex) >>
    ret (Some (at_index (history r) newIndex))
  else ret None.

Definition handleRedo (r : State) : Handler (option (option DataURL)) :=
  if historyIndex r <? Z.of_nat (length (history r)) - 1 then
    let newIndex := historyIndex r + 1 in
    setHistoryIndex (fun _ => newIndex) >>
    ret (Some (at_index (history r) newIndex))
  else ret None.

(** The browser decodes [img.src] and fires [onload]; an [undefined] source
    or an empty image ("data:,", from a canvas without pixels) never loads. *)
Definition loads (img : Bitmap) : bool := (0 <? width img) && (0 <? height img).

Definition deliver (src : option (option DataURL)) : Handler unit :=
  match src with
  | Some (Some img) => if loads img then onload img else skip
  | _ => skip
  end.

(** The history log of the spec: the entries with the cursor. *)
Definition log_ok (s : State) : Prop :=
  -1 <= historyIndex s <= Z.of_nat (length (history s)) - 1.

(** ** Stroking the current path

    [ctx.stroke()] traces the path as the canvas standard describes it: every
    subpath with at least one segment is decomposed into the bodies of its
    segments, the joins between consecutive segments, and either two caps
    (open subpath) or the closing segment with its two joins (closed one);
    the stroke style is composited over every pixel one of these pieces
    covers.  Which pixels a piece covers is the rasteriser's business, a
    parameter of the model. *)

(** A vertex is a point, or the point at angle 0 of a circle whose radius is
    only known by its square. *)
Inductive Vertex : Type :=
  | At (p : Point)
  | ArcEnd (c : Point) (radius_sq : Z).

Inductive Segment : Type :=
  | Line (from to : Vertex)
  | FullArc (c : Point) (radius_sq : Z).

Record Subpath : Type := mkSubpath {
  start : Vertex;
  segments : list Segment;
  closed : bool
}.

Definition segment_end (s : Segment) : Vertex :=
  match s with
  | Line _ q => q
  | FullArc c r2 => ArcEnd c r2
  end.

Definition last_vertex (sp : Subpath) : Vertex :=
  match last (segments sp) with
  | Some s => segment_end s
  | None => start sp
  end.

Definition extend (sp : Subpath) (segs : list Segment) : Subpath :=
  mkSubpath (start sp) (segments sp ++ segs) (closed sp).

(** One path-building call applied to the subpaths so far (newest first). *)
Definition add_command (sps : list Subpath) (cmd : PathCmd) : list Subpath :=
  match cmd with
  | PMoveTo p => mkSubpath (At p) [] false :: sps
  | PLineTo p =>
      match sps with
      | [] => [mkSubpath (At p) [] false]
      | sp :: rest => extend sp [Line (last_vertex sp) (At p)] :: rest
      end
  | PRect x0 y0 w h =>
      let a := At (mkPoint x0 y0) in
      let b := At (mkPoint (x0 + w) y0) in
      let c := At (mkPoint (x0 + w) (y0 + h)) in
      let d := At (mkPoint x0 (y0 + h)) in
      mkSubpath a [] false
        :: mkSubpath a [Line a b; Line b c; Line c d] true
        :: sps
  | PArc c r2 =>
      match sps with
      | [] => [mkSubpath (ArcEnd c r2) [FullArc c r2] false]
      | sp :: rest =>
          extend sp [Line (last_vertex sp) (ArcEnd c r2); FullArc c r2] :: rest
      end
  end.

Definition subpaths (cmds : list PathCmd) : list Subpath :=
  fold_left add_command cmds [].

Inductive Primitive : Type :=
  | Body (s : Segment)
  | JoinOf (s1 s2 : Segment)
  | StartCap (s : Segment)
  | EndCap (s : Segment).

Fixpoint joins (segs : list Segment) : list Primitive :=
  match segs with
  | s1 :: (s2 :: _) as rest => JoinOf s1 s2 :: joins rest
  | _ => []
  end.

Definition primitives (sp : Subpath) : list Primitive :=
  match segments sp with
  | [] => []
  | first :: _ =>
      if closed sp then
        let closing := Line (last_vertex sp) (start sp) in
        let segs := segments sp ++ [closing] in
        map Body segs ++ joins segs ++ [JoinOf closing first]
      else
        map Body (segments sp) ++ joins (segments sp) ++
        StartCap first ::
        match last (segments sp) with
        | Some final => [EndCap final]
        | None => []
        end
  end.

Record Pen : Type := mkPen {
  pen_width : Z;
  pen_cap : LineCap;
  pen_join : LineJoin
}.

Definition Rasteriser : Type := Pen -> Primitive -> Z -> Z -> bool.

Definition pen_of (k : Context2D) : Pen :=
  mkPen (lineWidth k) (lineCap k) (lineJoin k).

Definition stroke_bitmap (covers : Rasteriser) (k : Context2D) (b : Bitmap) : Bitmap :=
  mkBitmap (width b) (height b)
    (fun u v =>
       if existsb (fun prim => covers (pen_of k) prim u v)
            (flat_map primitives (subpaths (path k)))
       then source_over (strokeStyle k) (pixel b u v)
       else pixel b u v).

(** One rasteriser, without anti-aliasing: a pixel is covered by a straight
    segment when it lies within half the line width of it, and by a circle
    when its distance to the centre differs from the radius by at most half
    the line width; joins and caps add nothing. *)
Definition near_segment (wd : Z) (a b : Point) (u v : Z) : bool :=
  let dx := x b - x a in
  let dy := y b - y a in
  let ex := u - x a in
  let ey := v - y a in
  let t := ex * dx + ey * dy in
  let len := dx * dx + dy * dy in
  if t <=? 0 then 4 * (ex * ex + ey * ey) <=? wd * wd
  else if len <=? t then
    4 * ((u - x b) * (u - x b) + (v - y b) * (v - y b)) <=? wd * wd
  else 4 * ((ex * ex + ey * ey) * len - t * t) <=? wd * wd * len.

Definition near_circle (wd : Z) (c : Point) (r2 : Z) (u v : Z) : bool :=
  let d2 := (u - x c) * (u - x c) + (v - y c) * (v - y c) in
  let gap := 4 * (d2 + r2) - wd * wd in
  (gap <=? 0) || (gap * gap <=? 64 * d2 * r2).

Definition plain_raster : Rasteriser :=
  fun pn prim u v =>
    match prim with
    | Body (Line (At a) (At b)) => near_segment (pen_width pn) a b u v
    | Body (FullArc c r2) => near_circle (pen_width pn) c r2 u v
    | _ => false
    end.

(** ** Layers: [addLayer], [toggleLayerVisibility], [deleteLayer],
    [redrawCanvas] *)

Definition redrawCanvas (r : State) : Handler unit :=
  let* current := canvasRef_current in
  match current with
  | Some c =>
      let* cv := read c in
      clearRect c 0 0 (width (bitmap cv)) (height (bitmap cv)) >>
      assign_fillStyle c white >>
      fillRect c 0 0 (width (bitmap cv)) (height (bitmap cv)) >>
      forEach (layers r) (fun layer =>
        if visible layer then
          match canvas layer with
          | Some lc => let* src := read lc in drawImage c (bitmap src) 0 0
          | None => skip
          end
        else skip)
  | None => skip
  end.

Definition layer_number (r : State) : string :=
  pretty (Z.of_nat (length (layers r)) + 1).

Definition addLayer (r : State) : Handler unit :=
  let newLayerId := "layer-" +:+ layer_number r in
  let* created := createElement_canvas in
  let newLayer := mkLayer newLayerId ("Layer " +:+ layer_number r) true (Some created) in
  let* current := canvasRef_current in
  match current with
  | Some c =>
      let* cv := read c in
      on_canvas created (assign_width (width (bitmap cv))) >>
      on_canvas created (assign_height (height (bitmap cv))) >>
      assign_fillStyle created Clear >>
      let* nv := read created in
      fillRect created 0 0 (width (bitmap nv)) (height (bitmap nv))
  | None => skip
  end >>
  setLayers (fun prev => prev ++ [newLayer]) >>
  setActiveLayerIndex (fun _ => Z.of_nat (length (layers r))).

Definition toggle (layer : Layer) : Layer :=
  mkLayer (id layer) (name layer) (negb (visible layer)) (canvas layer).

(** The component memoises this callback with no dependencies, so the [r] it
    redraws from is the state of the first render. *)
Definition toggleLayerVisibility (r : State) (index : Z) : Handler unit :=
  setLayers (fun prev =>
    map_index (fun layer i => if i =? index then toggle layer else layer) 0 prev) >>
  redrawCanvas r.

Definition deleteLayer (r : State) (index : Z) : Handler unit :=
  if 1 <? Z.of_nat (length (layers r)) then
    setLayers (fun prev => filter_index (fun i => negb (i =? index)) 0 prev) >>
    (if index <=? activeLayerIndex r
     then setActiveLayerIndex (fun prev => Z.max 0 (prev - 1))
     else skip) >>
    redrawCanvas r
  else skip.

(** ** Pointer input *)

Record Touch : Type := mkTouch { clientX : Z; clientY : Z }.

Inductive PointerEvent : Type :=
  | MouseEvent (mouseX mouseY : Z)
  | TouchEvent (touches : list Touch).

(** [e.touches[0]], read for its coordinates. *)
Definition first_touch (touches : list Touch) : Handler Touch :=
  match touches with
  | t :: _ => ret t
  | [] => throw TypeError
  end.

Definition getCoordinates (e : PointerEvent) : Handler Point :=
  let* client :=
    match e with
    | TouchEvent touches => first_touch touches
    | MouseEvent mx my => ret (mkTouch mx my)
    end in
  let* current := canvasRef_current in
  match current with
  | Some c =>
      let* cv := read c in
      ret (mkPoint (clientX client - rect_left cv) (clientY client - rect_top cv))
  | None => ret (mkPoint 0 0)
  end.

(** The point a touch handler computes itself. *)
Definition touch_point (touch : Touch) : Handler Point :=
  let* current := canvasRef_current in
  match current with
  | Some c =>
      let* cv := read c in
      ret (mkPoint (clientX touch - rect_left cv) (clientY touch - rect_top cv))
  | None => ret (mkPoint (clientX touch - 0) (clientY touch - 0))
  end.

Definition is_freehand (m : DrawingMode) : bool :=
  match m with
  | pen | eraser => true
  | _ => false
  end.

Definition stroke (covers : Rasteriser) (c : nat) : Handler unit :=
  on_canvas c (fun cv => with_bitmap (stroke_bitmap covers (context cv)) cv).

(** The body shared by [startDrawing] and [handleTouchStart] once the point
    is known. *)
Definition begin_gesture (r : State) (point : Point) : Handler unit :=
  setIsDrawing true >>
  setStartPoint (Some point) >>
  let* current := canvasRef_current in
  if is_freehand (drawingMode r) then
    match current with
    | Some c =>
        beginPath c >>
        moveTo c point >>
        assign_lineCap c round_cap >>
        assign_lineJoin c round_join >>
        assign_strokeStyle c
          (match drawingMode r with eraser => white | _ => color r end) >>
        assign_lineWidth c (brushSize r)
    | None => skip
    end
  else
    match current with
    | Some c =>
        let* cv := read c in
        let* img := getImageData c 0 0 (width (bitmap cv)) (height (bitmap cv)) in
        setShapePreviewImage (Some img)
    | None => skip
    end.

Definition startDrawing (r : State) (e : PointerEvent) : Handler unit :=
  let* point := getCoordinates e in
  begin_gesture r point.

(** The [switch (drawingMode)] of [draw] and [handleTouchMove]. *)
Definition extend_gesture (covers : Rasteriser) (r : State) (point : Point) : Handler unit :=
  let* current := canvasRef_current in
  match current with
  | Some c =>
      if is_freehand (drawingMode r) then
        lineTo c point >>
        stroke covers c
      else
        match startPoint r, shapePreviewImage r with
        | Some anchor, Some img =>
            putImageData c img 0 0 >>
            beginPath c >>
            assign_strokeStyle c (color r) >>
            assign_lineWidth c (brushSize r) >>
            match drawingMode r with
            | rectangle =>
                rect c (x anchor) (y anchor) (x point - x anchor) (y point - y anchor) >>
                stroke covers c
            | circle =>
                let radius_sq :=
                  (x point - x anchor) ^ 2 + (y point - y anchor) ^ 2 in
                arc c anchor radius_sq >>
                stroke covers c
            | line =>
                moveTo c anchor >>
                lineTo c point >>
                stroke covers c
            | _ => skip
            end
        | _, _ => skip
        end
  | None => skip
  end.

Definition draw (covers : Rasteriser) (r : State) (e : PointerEvent) : Handler unit :=
  if negb (isDrawing r) then skip
  else
    let* point := getCoordinates e in
    extend_gesture covers r point.

Definition stopDrawing (r : State) : Handler unit :=
  if isDrawing r then
    setIsDrawing false >>
    setShapePreviewImage None >>
    saveToHistory r
  else skip.

Definition handleTouchStart (r : State) (touches : list Touch) : Handler unit :=
  let* touch := first_touch touches in
  let* point := touch_point touch in
  begin_gesture r point.

Definition handleTouchMove (covers : Rasteriser) (r : State) (touches : list Touch)
  : Handler unit :=
  if negb (isDrawing r) then skip
  else
    let* touch := first_touch touches in
    let* point := touch_point touch in
    extend_gesture covers r point.

Definition handleTouchEnd (r : State) : Handler unit :=
  if isDrawing r then
    setIsDrawing false >>
    setShapePreviewImage None >>
    saveToHistory r
  else skip.

(** The events the [<canvas>] element listens to, and its listeners. *)
Inductive CanvasEvent : Type :=
  | onMouseDown (e : PointerEvent)
  | onMouseMove (e : PointerEvent)
  | onMouseUp
  | onMouseLeave
  | onTouchStart (touches : list Touch)
  | onTouchMove (touches : list Touch)
  | onTouchEnd.

Definition dispatch (covers : Rasteriser) (r : State) (ev : CanvasEvent) : Handler unit :=
  match ev with
  | onMouseDown e => startDrawing r e
  | onMouseMove e => draw covers r e
  | onMouseUp => stopDrawing r
  | onMouseLeave => stopDrawing r
  | onTouchStart touches => handleTouchStart r touches
  | onTouchMove touches => handleTouchMove covers r touches
  | onTouchEnd => handleTouchEnd r
  end.

(** ** Resize, clear, and the mount effect *)

(** Both [resize] listeners have this body. *)
Definition handleResize : Handler unit :=
  let* current := canvasRef_current in
  match current with
  | Some c =>
      let* cv := read c in
      match parentElement cv with
      | Some (clientWidth, clientHeight) =>
          let* currentImageData :=
            getImageData c 0 0 (width (bitmap cv)) (height (bitmap cv)) in
          on_canvas c (assign_width clientWidth) >>
          on_canvas c (assign_height clientHeight) >>
          putImageData c currentImageData 0 0
      | None => skip
      end
  | None => skip
  end.

Definition handleClearCanvas (r : State) : Handler unit :=
  let* current := canvasRef_current in
  match current with
  | Some c =>
      let* cv := read c in
      assign_fillStyle c white >>
      fillRect c 0 0 (width (bitmap cv)) (height (bitmap cv)) >>
      saveToHistory r
  | None => skip
  end.

(** The effect run when the editor replaces the landing page. *)
Definition initialize (r : State) : Handler unit :=
  let* current := canvasRef_current in
  match current with
  | Some c =>
      let* cv := read c in
      match parentElement cv with
      | Some (clientWidth, clientHeight) =>
          on_canvas c (assign_width clientWidth) >>
          on_canvas c (assign_height clientHeight)
      | None => skip
      end >>
      assign_fillStyle c white >>
      let* sized := read c in
      fillRect c 0 0 (width (bitmap sized)) (height (bitmap sized)) >>
      setLayers (fun prevLayers =>
        map_index (fun layer index =>
          if (index =? 0) && negb (bool_decide (is_Some (canvas layer)))
          then mkLayer (id layer) (name layer) (visible layer) (Some c)
          else layer) 0 prevLayers) >>
      saveToHistory r
  | None => skip
  end.

(** ** Runs of several events *)

(** Only the cursor moved. *)
Definition move_cursor (i : Z) (w : World) : World :=
  (setHistoryIndex (fun _ => i) w).2.

(** Whatever was drawn since the last checkpoint: the on-screen canvas now
    shows [b]. *)
Definition paint (b : Bitmap) (w : World) : World :=
  match canvasRef w with
  | Some c => update_canvas c (with_bitmap (fun _ => b)) w
  | None => w
  end.

(** A gesture that leaves [b] on the canvas and is committed. *)
Definition checkpoint (w : World) (b : Bitmap) : World :=
  (run saveToHistory (paint b w)).2.

(** A click on undo (redo), with the image load it starts delivered before
    the next event. *)
Definition undo_step (w : World) : World :=
  match run handleUndo w with
  | (Done src, w') => (deliver src w').2
  | (Thrown _, w') => w'
  end.

Definition redo_step (w : World) : World :=
  match run handleRedo w with
  | (Done src, w') => (deliver src w').2
  | (Thrown _, w') => w'
  end.

(** The on-screen canvas whitened, as [redrawCanvas] starts. *)
Definition whitened (c : nat) (w : World) : World :=
  let wd := width (bitmap (document w c)) in
  let ht := height (bitmap (document w c)) in
  ((clearRect c 0 0 wd ht >> assign_fillStyle c white >> fillRect c 0 0 wd ht) w).2.

(** One layer drawn over the canvas [c]. *)
Definition overlay (c : nat) (layer : Layer) : Handler unit :=
  match canvas layer with
  | Some lc => let* src := read lc in drawImage c (bitmap src) 0 0
  | None => skip
  end.

Definition layer_ids (w : World) : list string := map id (layers (state w)).

(** The points handed to the context since [beginPath]. *)
Definition path_points (cmds : list PathCmd) : list Point :=
  flat_map (fun cmd =>
    match cmd with
    | PMoveTo p => [p]
    | PLineTo p => [p]
    | PRect x0 y0 w h => [mkPoint x0 y0; mkPoint (x0 + w) (y0 + h)]
    | PArc c _ => [c]
    end) cmds.

Definition on_surface (b : Bitmap) (p : Point) : Prop :=
  0 <= x p <= width b /\ 0 <= y p <= height b.

(** What undo and redo never touch: the canvas reference, the entries, and
    the size of the canvas [c]. *)
Definition frame (c : nat) (w w' : World) : Prop :=
  canvasRef w' = canvasRef w /\
  history (state w') = history (state w) /\
  width (bitmap (document w' c)) = width (bitmap (document w c)) /\
  height (bitmap (document w' c)) = height (bitmap (document w c)).



(** *** A concrete page *)

(** The landing page just left: a default canvas in a 100 x 100 container. *)
Definition page_canvas : CanvasElement :=
  mkCanvasElement (blank 300 150) default_context (Some (100, 100)) 0 0.

Definition landing_world : World :=
  mkWorld initial_state (Some 0%nat)
    (fun c => if Nat.eqb c 0 then page_canvas else new_canvas) 1.

Definition editor_world : World := (run initialize landing_world).2.

Definition all_white (w h : Z) : Bitmap := mkBitmap w h (fun _ _ => white).
Definition all_black (w h : Z) : Bitmap := mkBitmap w h (fun _ _ => black).

(** Three checkpoints and one undo: the cursor is below the tip. *)
Definition branched_world : World :=
  undo_step
    (checkpoint (checkpoint editor_world (all_black 100 100)) (all_white 100 100)).

(** A drawing on the canvas, and a stack whose only layer is hidden. *)
Definition drawn_world : World := paint (all_black 100 100) editor_world.


(** A second layer added; then the first one deleted and a layer added
    again. *)
Definition two_layer_world : World := (run addLayer editor_world).2.

Definition readded_world : World :=
  (run addLayer (run (fun r => deleteLayer r 0) two_layer_world).2).2.


(** A pen gesture opened at (10, 10). *)
Definition gesture_world : World :=
  (run (fun r => startDrawing r (MouseEvent 10 10)) editor_world).2.

(** The window resized: the container of the canvas is now 200 x 50. *)
Definition resized_container : World :=
  update_canvas 0
    (fun cv => mkCanvasElement (bitmap cv) (context cv) (Some (200, 50))
                 (rect_left cv) (rect_top cv))
    editor_world.

(** *** What the toolbar and the layers panel offer *)

(** The [disabled] attribute of the undo and of the redo button, and the
    condition under which a layer row shows its delete button. *)
Definition undo_disabled (r : State) : bool := historyIndex r <=? 0.

Definition redo_disabled (r : State) : bool :=
  Z.of_nat (length (history r)) - 1 <=? historyIndex r.

Definition delete_offered (r : State) : bool := 1 <? Z.of_nat (length (layers r)).

(** *** States the component can be in *)

(** The log is empty with the cursor at -1, or the cursor is on an entry. *)
Definition log_reachable (s : State) : Prop :=
  (history s = [] /\ historyIndex s = -1) \/
  0 <= historyIndex s <= Z.of_nat (length (history s)) - 1.

(** The active index points into the stack (which is then not empty). *)
Definition stack_ok (s : State) : Prop :=
  0 <= activeLayerIndex s < Z.of_nat (length (layers s)).

(** One event on the canvas, handled by the listener of the current render. *)
Definition handle (covers : Rasteriser) (w : World) (ev : CanvasEvent) : World :=
  (run (fun r => dispatch covers r ev) w).2.

(** A mouse gesture: button down at [down], the moves, button up. *)
Definition mouse_gesture (down : Z * Z) (moves : list (Z * Z)) : list CanvasEvent :=
  onMouseDown (MouseEvent down.1 down.2)
    :: map (fun m => onMouseMove (MouseEvent m.1 m.2)) moves ++ [onMouseUp].

Definition transparent (b : Bitmap) : Prop := forall u v, pixelAt b u v = Clear.

(** A layer that adds nothing to a white output: it has no canvas, or the
    output canvas [c] itself, or a canvas without any paint. *)
Definition adds_nothing (c : nat) (w : World) (layer : Layer) : Prop :=
  match canvas layer with
  | None => True
  | Some lc => lc = c \/ transparent (bitmap (document w lc))
  end.

(** The path a shape preview strokes. *)
Definition shape_path (mode : DrawingMode) (anchor p : Point) : list PathCmd :=
  match mode with
  | rectangle => [PRect (x anchor) (y anchor) (x p - x anchor) (y p - y anchor)]
  | circle => [PArc anchor ((x p - x anchor) ^ 2 + (y p - y anchor) ^ 2)]
  | line => [PMoveTo anchor; PLineTo p]
  | _ => []
  end.

Definition is_shape (m : DrawingMode) : bool := negb (is_freehand m).

(** The ids of a stack that has only grown: "layer-1" ... "layer-n". *)
Definition numbered_ids (n : nat) : list string :=
  map (fun k => "layer-" +:+ pretty (Z.of_nat k + 1)) (seq 0 n).

(** The container of the canvas [c] takes a new client size. *)
Definition set_container (size : Z * Z) (c : nat) (w : World) : World :=
  update_canvas c
    (fun cv => mkCanvasElement (bitmap cv) (context cv) (Some size)
                 (rect_left cv) (rect_top cv))
    w.

(** The window has grown to 200 x 50 since the three checkpoints. *)
Definition grown_world : World :=
  (handleResize (set_container (200, 50) 0 branched_world)).2.

(** The entry the log holds at [i] (an empty image when there is none). *)
Definition entry_at (w : World) (i : Z) : Bitmap :=
  default (blank 0 0) (at_index (history (state w)) i).

(** A tool button of the toolbar. *)
Definition setDrawingMode (m : DrawingMode) : Handler unit :=
  modify (fun s => mkState (isDrawing s) m (color s) (brushSize s) (startPoint s)
    (layers s) (activeLayerIndex s) (history s) (historyIndex s) (shapePreviewImage s)).

(** The editor with the line tool selected. *)
Definition line_tool_world : World := (setDrawingMode line editor_world).2.

(** The container collapsed to width 0 and the window was resized; then the
    container came back to 100 x 100. *)
Definition collapsed_world : World :=
  set_container (100, 100) 0 (handleResize (set_container (0, 80) 0 editor_world)).2.

(** The landing page: no canvas is mounted. *)
Definition unmounted_world : World :=
  mkWorld initial_state None (fun _ => new_canvas) 0.

(** * Properties *)

(** ** Arrays *)

Lemma slice_prefix {A} (l : list A) (stop : Z) :
  0 <= stop <= Z.of_nat (length l) ->
  slice l 0 stop = take (Z.to_nat stop) l.
Proof.
  intros Hstop. unfold slice, relative_index.
  destruct (Z.ltb_spec stop 0) as [Hneg | _]; [lia |].
  rewrite Z.min_l by lia. simpl.
  rewrite Z.min_l by lia. rewrite Z.sub_0_r. reflexivity.
Qed.

Lemma at_index_app_last {A} (l : list A) (a : A) :
  at_index (l ++ [a]) (Z.of_nat (length l)) = Some a.
Proof.
  unfold at_index.
  destruct (Z.ltb_spec (Z.of_nat (length l)) 0) as [Hneg | _]; [lia |].
  rewrite Nat2Z.id. rewrite lookup_app_r by lia.
  rewrite Nat.sub_diag. reflexivity.
Qed.

Lemma at_index_in_range {A} (l : list A) (i : Z) :
  0 <= i < Z.of_nat (length l) -> exists a, at_index l i = Some a.
Proof.
  intros Hi. unfold at_index.
  destruct (Z.ltb_spec i 0) as [Hneg | _]; [lia |].
  destruct (lookup_lt_is_Some_2 l (Z.to_nat i)) as [a Ha]; [lia |].
  exists a. exact Ha.
Qed.

(** ** History *)

Section History.

Variable w : World.
Variable c : nat.
Hypothesis Hcanvas : canvasRef w = Some c.

Let s := state w.
Let snapshot := bitmap (document w c).
Let len := Z.of_nat (length (history s)).

Lemma saveToHistory_done : (run saveToHistory w).1 = Done tt.
Proof.
  unfold run, saveToHistory, bind, canvasRef_current. rewrite Hcanvas.
  simpl. destruct (historyIndex (state w) <? _); reflexivity.
Qed.

Lemma saveToHistory_history :
  history (state (run saveToHistory w).2) =
  (if historyIndex s <? len - 1
   then slice (history s) 0 (historyIndex s + 1)
   else history s) ++ [snapshot].
Proof.
  unfold run, saveToHistory, bind, canvasRef_current. rewrite Hcanvas.
  subst s len snapshot. simpl.
  destruct (historyIndex (state w) <? _); reflexivity.
Qed.

Lemma saveToHistory_cursor :
  historyIndex (state (run saveToHistory w).2) = historyIndex s + 1.
Proof.
  unfold run, saveToHistory, bind, canvasRef_current. rewrite Hcanvas.
  subst s. simpl.
  destruct (historyIndex (state w) <? _); reflexivity.
Qed.

Lemma saveToHistory_document :
  document (run saveToHistory w).2 = document w /\
  canvasRef (run saveToHistory w).2 = canvasRef w.
Proof.
  unfold run, saveToHistory, bind, canvasRef_current.
  destruct (canvasRef w) eqn:Href; [| discriminate].
  simpl. destruct (historyIndex (state w) <? _); cbn; split; congruence.
Qed.

End History.

(** C1. [saveToHistory] on a history log ([-1 <= cursor <= length - 1]) with
    the canvas mounted: when the cursor is below the last entry the entries
    are first cut down to the [cursor + 1] first ones, then the snapshot of
    the canvas is appended and the cursor becomes [length - 1]; from a
    non-tip cursor the new length is [old cursor + 2], and the cursor is on
    the entry just appended. *)
Theorem saveToHistory_checkpoint (w : World) (c : nat) :
  canvasRef w = Some c ->
  log_ok (state w) ->
  let s := state w in
  let snapshot := bitmap (document w c) in
  let s' := state (run saveToHistory w).2 in
  (run saveToHistory w).1 = Done tt /\
  history s' = take (Z.to_nat (historyIndex s + 1)) (history s) ++ [snapshot] /\
  (historyIndex s = Z.of_nat (length (history s)) - 1 ->
     history s' = history s ++ [snapshot]) /\
  historyIndex s' = Z.of_nat (length (history s')) - 1 /\
  (historyIndex s < Z.of_nat (length (history s)) - 1 ->
     Z.of_nat (length (history s')) = historyIndex s + 2) /\
  at_index (history s') (historyIndex s') = Some snapshot.
Proof.
  intros Hcanvas Hlog s snapshot s'. unfold log_ok in Hlog. fold s in Hlog.
  assert (Hhist : history s' =
                  take (Z.to_nat (historyIndex s + 1)) (history s) ++ [snapshot]).
  { subst s'. rewrite (saveToHistory_history w c Hcanvas). fold s. f_equal.
    destruct (Z.ltb_spec (historyIndex s) (Z.of_nat (length (history s)) - 1)).
    - apply slice_prefix. lia.
    - rewrite take_ge by lia. reflexivity. }
  assert (Hcur : historyIndex s' = historyIndex s + 1).
  { subst s'. apply (saveToHistory_cursor w c Hcanvas). }
  assert (Hlen : Z.of_nat (length (history s')) = historyIndex s + 2).
  { rewrite Hhist, length_app, length_take. simpl. lia. }
  split; [apply (saveToHistory_done w c Hcanvas) |].
  split; [exact Hhist |].
  split.
  { intros Htip. rewrite Hhist. rewrite take_ge by lia. reflexivity. }
  split; [lia |].
  split; [intros _; exact Hlen |].
  rewrite Hcur, Hhist.
  pose proof (at_index_app_last
                (take (Z.to_nat (historyIndex s + 1)) (history s)) snapshot) as Hlast.
  rewrite length_take in Hlast.
  replace (Z.of_nat (Z.to_nat (historyIndex s + 1) `min` length (history s)))
    with (historyIndex s + 1) in Hlast by lia.
  exact Hlast.
Qed.

Lemma saveToHistory_checkpoint_witness :
  canvasRef branched_world = Some 0%nat /\
  log_ok (state branched_world) /\
  historyIndex (state branched_world) = 1 /\
  Z.of_nat (length (history (state branched_world))) = 3 /\
  Z.of_nat (length (history (state (run saveToHistory branched_world).2))) = 3 /\
  historyIndex (state (run saveToHistory branched_world).2) = 2.
Proof.
  assert (Hcanvas : canvasRef branched_world = Some 0%nat) by reflexivity.
  assert (Hlog : log_ok (state branched_world)) by (unfold log_ok; simpl; lia).
  destruct (saveToHistory_checkpoint branched_world 0 Hcanvas Hlog)
    as (_ & _ & _ & Hcursor & Hlength & _).
  split; [exact Hcanvas |].
  split; [exact Hlog |].
  split; [reflexivity |].
  split; [reflexivity |].
  assert (Hbelow : historyIndex (state branched_world)
                   < Z.of_nat (length (history (state branched_world))) - 1)
    by (simpl; lia).
  specialize (Hlength Hbelow).
  split; [rewrite Hlength; reflexivity |].
  rewrite Hcursor, Hlength. reflexivity.
Defined.

Lemma handleUndo_moves (w : World) :
  0 < historyIndex (state w) <= Z.of_nat (length (history (state w))) - 1 ->
  exists entry,
    at_index (history (state w)) (historyIndex (state w) - 1) = Some entry /\
    run handleUndo w =
    (Done (Some (Some entry)), move_cursor (historyIndex (state w) - 1) w).
Proof.
  intros Hrange.
  destruct (at_index_in_range (history (state w)) (historyIndex (state w) - 1))
    as [entry He]; [lia |].
  exists entry. split; [exact He |].
  unfold run, handleUndo.
  destruct (Z.ltb_spec 0 (historyIndex (state w))); [| lia].
  unfold bind, ret, move_cursor. simpl. rewrite He. reflexivity.
Qed.

Lemma handleRedo_moves (w : World) :
  -1 <= historyIndex (state w) < Z.of_nat (length (history (state w))) - 1 ->
  exists entry,
    at_index (history (state w)) (historyIndex (state w) + 1) = Some entry /\
    run handleRedo w =
    (Done (Some (Some entry)), move_cursor (historyIndex (state w) + 1) w).
Proof.
  intros Hrange.
  destruct (at_index_in_range (history (state w)) (historyIndex (state w) + 1))
    as [entry He]; [lia |].
  exists entry. split; [exact He |].
  unfold run, handleRedo.
  destruct (Z.ltb_spec (historyIndex (state w))
              (Z.of_nat (length (history (state w))) - 1)); [| lia].
  unfold bind, ret, move_cursor. simpl. rewrite He. reflexivity.
Qed.

(** C2. On a history log, [handleUndo] with the cursor at 0 or the log empty,
    and [handleRedo] with the cursor on the last entry, start no image load
    and leave the whole world (cursor, entries, canvases) as it is, without
    throwing; otherwise undo moves the cursor one down, redo one up, nothing
    else changes, and the entry at the new cursor is the one loaded. *)
Theorem undo_redo_cursor (w : World) :
  log_ok (state w) ->
  let s := state w in
  let last_index := Z.of_nat (length (history s)) - 1 in
  (historyIndex s <= 0 -> run handleUndo w = (Done None, w)) /\
  (historyIndex s = last_index -> run handleRedo w = (Done None, w)) /\
  (0 < historyIndex s ->
     exists entry,
       at_index (history s) (historyIndex s - 1) = Some entry /\
       run handleUndo w =
       (Done (Some (Some entry)), move_cursor (historyIndex s - 1) w)) /\
  (historyIndex s < last_index ->
     exists entry,
       at_index (history s) (historyIndex s + 1) = Some entry /\
       run handleRedo w =
       (Done (Some (Some entry)), move_cursor (historyIndex s + 1) w)).
Proof.
  intros Hlog s last_index. unfold log_ok in Hlog. fold s in Hlog.
  repeat split.
  - intros Hlow. unfold run, handleUndo. fold s.
    destruct (Z.ltb_spec 0 (historyIndex s)); [lia | reflexivity].
  - intros Htip. unfold run, handleRedo. fold s. fold last_index.
    destruct (Z.ltb_spec (historyIndex s) last_index); [lia | reflexivity].
  - intros Hpos. apply handleUndo_moves. fold s. lia.
  - intros Hbelow. subst last_index. apply handleRedo_moves. fold s. lia.
Qed.

Lemma undo_redo_cursor_witness :
  log_ok (state branched_world) /\
  run handleRedo (undo_step branched_world) <> (Done None, undo_step branched_world) /\
  run handleUndo (undo_step branched_world)
  = (Done None, undo_step branched_world) /\
  historyIndex (state (run handleUndo branched_world).2) = 0.
Proof.
  assert (Hlog : log_ok (state branched_world)) by (unfold log_ok; simpl; lia).
  assert (Hlog0 : log_ok (state (undo_step branched_world)))
    by (unfold log_ok; simpl; lia).
  split; [exact Hlog |].
  destruct (undo_redo_cursor (undo_step branched_world) Hlog0)
    as (Hundo0 & _ & _ & Hredo).
  destruct (undo_redo_cursor branched_world Hlog) as (_ & _ & Hundo & _).
  split.
  - destruct Hredo as (entry & _ & Hrun); [simpl; lia |].
    rewrite Hrun. discriminate.
  - split; [apply Hundo0; simpl; lia |].
    destruct Hundo as (entry & _ & Hrun); [simpl; lia |].
    rewrite Hrun. reflexivity.
Defined.

(** ** Canvases *)

Lemma source_over_clear (s : Pixel) : source_over s Clear = s.
Proof. destruct s; reflexivity. Qed.

Lemma white_over (d : Pixel) : source_over white d = white.
Proof.
  destruct d as [| r g b a]; [reflexivity |].
  unfold white, source_over. cbv zeta.
  replace (Z.pos a * (255 - 255)) with 0 by lia.
  rewrite !Z.mul_0_r, !Z.add_0_r. reflexivity.
Qed.

Lemma document_update_same (c : nat) (f : CanvasElement -> CanvasElement) (w : World) :
  document (update_canvas c f w) c = f (document w c).
Proof. simpl. rewrite Nat.eqb_refl. reflexivity. Qed.

Lemma document_update_other (c c' : nat) (f : CanvasElement -> CanvasElement) (w : World) :
  c' <> c -> document (update_canvas c f w) c' = document w c'.
Proof.
  intros Hne. simpl. destruct (Nat.eqb_spec c' c); [contradiction | reflexivity].
Qed.

Lemma same_pixels_refl (b : Bitmap) : same_pixels b b.
Proof. repeat split. Qed.

(** ** Undo and redo as steps *)

Section Steps.

Variable c : nat.

Lemma onload_frame (w : World) (img : Bitmap) :
  canvasRef w = Some c ->
  loads img = true ->
  let w' := (onload img w).2 in
  state w' = state w /\ frame c w w' /\
  forall u v,
    pixelAt (bitmap (document w' c)) u v =
    if inside (bitmap (document w c)) u v then pixelAt img u v else Clear.
Proof.
  intros Hcanvas Hloads.
  unfold onload, bind, canvasRef_current, read, clearRect, drawImage, on_canvas.
  rewrite Hcanvas.
  unfold loads in Hloads. apply andb_true_iff in Hloads as [Hw Hh].
  apply Z.ltb_lt in Hw. apply Z.ltb_lt in Hh.
  destruct (Z.eqb_spec (width img) 0) as [Hz | _]; [lia |].
  destruct (Z.eqb_spec (height img) 0) as [Hz | _]; [lia |].
  cbn -[update_canvas]. unfold frame. rewrite !document_update_same.
  split; [reflexivity |].
  split; [repeat split |].
  intros u v. unfold pixelAt, inside at 1. cbn.
  rewrite !Z.sub_0_r.
  unfold inside at 2.
  destruct ((0 <=? u) && (u <? width (bitmap (document w c))) &&
            (0 <=? v) && (v <? height (bitmap (document w c)))) eqn:Hin;
    [| reflexivity].
  unfold in_rect. rewrite !Z.add_0_l, Hin.
  destruct (inside img u v); [apply source_over_clear | reflexivity].
Qed.

Lemma deliver_frame (w : World) (src : option (option DataURL)) :
  canvasRef w = Some c ->
  let w' := (deliver src w).2 in
  state w' = state w /\ frame c w w'.
Proof.
  intros Hcanvas. destruct src as [[img |] |]; simpl;
    try (repeat split; reflexivity).
  destruct (loads img) eqn:Hloads.
  - destruct (onload_frame w img Hcanvas Hloads) as (Hs & Hf & _). auto.
  - repeat split; reflexivity.
Qed.

Lemma deliver_shows (w : World) (img : Bitmap) :
  canvasRef w = Some c ->
  width img = width (bitmap (document w c)) ->
  height img = height (bitmap (document w c)) ->
  same_pixels (bitmap (document (deliver (Some (Some img)) w).2 c)) img.
Proof.
  intros Hcanvas Hw Hh.
  destruct (deliver_frame w (Some (Some img)) Hcanvas) as (_ & _ & _ & Hw' & Hh').
  split; [congruence |]. split; [congruence |].
  intros u v. simpl. destruct (loads img) eqn:Hloads.
  - destruct (onload_frame w img Hcanvas Hloads) as (_ & _ & Hpix).
    rewrite Hpix. unfold pixelAt, inside. rewrite <- Hw, <- Hh.
    fold (inside img u v). destruct (inside img u v); reflexivity.
  - simpl. unfold pixelAt, inside. rewrite <- Hw, <- Hh.
    unfold loads in Hloads. apply andb_false_iff in Hloads.
    destruct Hloads as [H0 | H0]; apply Z.ltb_ge in H0;
      destruct (Z.leb_spec 0 u), (Z.ltb_spec u (width img)),
               (Z.leb_spec 0 v), (Z.ltb_spec v (height img));
      simpl; try reflexivity; lia.
Qed.

Lemma move_cursor_frame (i : Z) (w : World) :
  frame c w (move_cursor i w) /\ historyIndex (state (move_cursor i w)) = i.
Proof. repeat split. Qed.

Lemma frame_trans (w1 w2 w3 : World) : frame c w1 w2 -> frame c w2 w3 -> frame c w1 w3.
Proof.
  unfold frame. intros (? & ? & ? & ?) (? & ? & ? & ?).
  repeat split; congruence.
Qed.

Lemma undo_step_spec (w : World) :
  canvasRef w = Some c ->
  0 < historyIndex (state w) <= Z.of_nat (length (history (state w))) - 1 ->
  frame c w (undo_step w) /\
  historyIndex (state (undo_step w)) = historyIndex (state w) - 1.
Proof.
  intros Hcanvas Hrange.
  destruct (handleUndo_moves w Hrange) as (entry & _ & Hrun).
  unfold undo_step. rewrite Hrun.
  destruct (move_cursor_frame (historyIndex (state w) - 1) w) as [Hf Hi].
  destruct (deliver_frame (move_cursor (historyIndex (state w) - 1) w)
              (Some (Some entry))) as [Hs Hf'].
  { destruct Hf as [Hr _]. congruence. }
  split; [exact (frame_trans _ _ _ Hf Hf') |].
  rewrite Hs. exact Hi.
Qed.

Lemma redo_step_spec (w : World) :
  canvasRef w = Some c ->
  -1 <= historyIndex (state w) < Z.of_nat (length (history (state w))) - 1 ->
  frame c w (redo_step w) /\
  historyIndex (state (redo_step w)) = historyIndex (state w) + 1 /\
  forall img,
    at_index (history (state w)) (historyIndex (state w) + 1) = Some img ->
    width img = width (bitmap (document w c)) ->
    height img = height (bitmap (document w c)) ->
    same_pixels (bitmap (document (redo_step w) c)) img.
Proof.
  intros Hcanvas Hrange.
  destruct (handleRedo_moves w Hrange) as (entry & Hentry & Hrun).
  unfold redo_step. rewrite Hrun.
  destruct (move_cursor_frame (historyIndex (state w) + 1) w) as [Hf Hi].
  assert (Hcanvas' : canvasRef (move_cursor (historyIndex (state w) + 1) w) = Some c).
  { destruct Hf as [Hr _]. congruence. }
  destruct (deliver_frame (move_cursor (historyIndex (state w) + 1) w)
              (Some (Some entry)) Hcanvas') as [Hs Hf'].
  split; [exact (frame_trans _ _ _ Hf Hf') |].
  split; [rewrite Hs; exact Hi |].
  intros img Himg Hw Hh.
  assert (entry = img) by congruence. subst img.
  apply deliver_shows; [exact Hcanvas' | exact Hw | exact Hh].
Qed.

Lemma undo_steps_spec (k : nat) (w : World) :
  canvasRef w = Some c ->
  Z.of_nat k <= historyIndex (state w) <= Z.of_nat (length (history (state w))) - 1 ->
  frame c w (Nat.iter k undo_step w) /\
  historyIndex (state (Nat.iter k undo_step w)) = historyIndex (state w) - Z.of_nat k.
Proof.
  intros Hcanvas. induction k as [| k IH]; intros Hrange.
  - simpl. split; [repeat split | lia].
  - destruct IH as [Hf Hi]; [lia |].
    change (Nat.iter (S k) undo_step w) with (undo_step (Nat.iter k undo_step w)).
    destruct (undo_step_spec (Nat.iter k undo_step w)) as [Hf' Hi'].
    + destruct Hf as [Hr _]. congruence.
    + destruct Hf as (_ & Hh & _). rewrite Hh, Hi. lia.
    + split; [exact (frame_trans _ _ _ Hf Hf') |]. rewrite Hi', Hi. lia.
Qed.

Lemma redo_steps_spec (k : nat) (w : World) :
  canvasRef w = Some c ->
  -1 <= historyIndex (state w) ->
  historyIndex (state w) + Z.of_nat k <= Z.of_nat (length (history (state w))) - 1 ->
  frame c w (Nat.iter k redo_step w) /\
  historyIndex (state (Nat.iter k redo_step w)) = historyIndex (state w) + Z.of_nat k.
Proof.
  intros Hcanvas Hlow. induction k as [| k IH]; intros Hrange.
  - simpl. split; [repeat split | lia].
  - destruct IH as [Hf Hi]; [lia |].
    change (Nat.iter (S k) redo_step w) with (redo_step (Nat.iter k redo_step w)).
    destruct (redo_step_spec (Nat.iter k redo_step w)) as (Hf' & Hi' & _).
    + destruct Hf as [Hr _]. congruence.
    + destruct Hf as (_ & Hh & _). rewrite Hh, Hi. lia.
    + split; [exact (frame_trans _ _ _ Hf Hf') |]. rewrite Hi', Hi. lia.
Qed.

Lemma checkpoint_spec (w : World) (b : Bitmap) :
  canvasRef w = Some c ->
  historyIndex (state w) = Z.of_nat (length (history (state w))) - 1 ->
  let w' := checkpoint w b in
  canvasRef w' = Some c /\
  history (state w') = history (state w) ++ [b] /\
  historyIndex (state w') = Z.of_nat (length (history (state w'))) - 1 /\
  bitmap (document w' c) = b.
Proof.
  intros Hcanvas Htip w'.
  assert (Hpaint : canvasRef (paint b w) = Some c).
  { unfold paint. rewrite Hcanvas. exact Hcanvas. }
  assert (Hstate : state (paint b w) = state w).
  { unfold paint. rewrite Hcanvas. reflexivity. }
  assert (Hshown : bitmap (document (paint b w) c) = b).
  { unfold paint. rewrite Hcanvas, document_update_same. reflexivity. }
  pose proof (saveToHistory_history (paint b w) c Hpaint) as Happend.
  pose proof (saveToHistory_cursor (paint b w) c Hpaint) as Hcursor.
  destruct (saveToHistory_document (paint b w) c Hpaint) as [Hdoc Href].
  rewrite Hstate in Happend, Hcursor. rewrite Hshown in Happend.
  destruct (Z.ltb_spec (historyIndex (state w))
              (Z.of_nat (length (history (state w))) - 1)) as [Hbelow | _];
    [lia |].
  subst w'. unfold checkpoint.
  split; [congruence |].
  split; [exact Happend |].
  split; [rewrite Hcursor, Happend, length_app; cbn [length]; lia |].
  rewrite Hdoc. exact Hshown.
Qed.

Lemma checkpoints_spec (bs : list Bitmap) (w : World) :
  canvasRef w = Some c ->
  historyIndex (state w) = Z.of_nat (length (history (state w))) - 1 ->
  let w' := fold_left checkpoint bs w in
  canvasRef w' = Some c /\
  history (state w') = history (state w) ++ bs /\
  historyIndex (state w') = Z.of_nat (length (history (state w'))) - 1 /\
  forall b, last bs = Some b -> bitmap (document w' c) = b.
Proof.
  revert w. induction bs as [| b bs IH] using rev_ind; intros w Hcanvas Htip.
  - simpl. rewrite app_nil_r. repeat split; [exact Hcanvas | exact Htip |].
    intros b Hb. discriminate.
  - destruct (IH w Hcanvas Htip) as (Hc & Hh & Hi & _).
    intros w'. subst w'. rewrite fold_left_app. simpl.
    destruct (checkpoint_spec (fold_left checkpoint bs w) b Hc Hi)
      as (Hc' & Hh' & Hi' & Hb').
    split; [exact Hc' |].
    split; [rewrite Hh', Hh, <- app_assoc; reflexivity |].
    split; [exact Hi' |].
    intros b' Hlast. rewrite last_snoc in Hlast. congruence.
Qed.

End Steps.

(** C3. From a log with the cursor on its last entry (or empty), the
    checkpoints [first :: rest] (n of them, so [length rest] is n - 1) are
    committed in order; n - 1 undos walk the cursor back to the entry of the
    first one, and n - 1 redos then bring it back to the entry of the last
    one, with the canvas showing exactly the pixels of that last
    checkpoint. *)
Theorem undo_redo_round_trip (w : World) (c : nat) (first : Bitmap) (rest : list Bitmap) :
  canvasRef w = Some c ->
  historyIndex (state w) = Z.of_nat (length (history (state w))) - 1 ->
  let newest := default first (last rest) in
  let pushed := fold_left checkpoint (first :: rest) w in
  let undone := Nat.iter (length rest) undo_step pushed in
  let final := Nat.iter (length rest) redo_step undone in
  history (state pushed) = history (state w) ++ first :: rest /\
  historyIndex (state undone) = Z.of_nat (length (history (state w))) /\
  history (state final) = history (state pushed) /\
  historyIndex (state final) = historyIndex (state pushed) /\
  at_index (history (state final)) (historyIndex (state final)) = Some newest /\
  same_pixels (bitmap (document final c)) newest.
Proof.
  intros Hcanvas Htip newest pushed undone final.
  assert (Hnewest : last (first :: rest) = Some newest).
  { subst newest. rewrite last_cons. destruct (last rest); reflexivity. }
  destruct (checkpoints_spec c (first :: rest) w Hcanvas Htip)
    as (Hc & Hh & Hi & Hshown).
  fold pushed in Hc, Hh, Hi, Hshown.
  specialize (Hshown newest Hnewest).
  assert (Hlen : Z.of_nat (length (history (state pushed)))
                 = Z.of_nat (length (history (state w))) + Z.of_nat (length rest) + 1).
  { rewrite Hh, length_app. cbn [length]. lia. }
  destruct (undo_steps_spec c (length rest) pushed Hc) as [Hfu Hiu]; [lia |].
  fold undone in Hfu, Hiu.
  assert (Hcu : canvasRef undone = Some c).
  { destruct Hfu as [Hr _]. congruence. }
  assert (Hhu : history (state undone) = history (state pushed)).
  { destruct Hfu as (_ & Hr & _). exact Hr. }
  assert (Hentry : at_index (history (state pushed)) (historyIndex (state pushed))
                   = Some newest).
  { rewrite Hi, Hh.
    destruct (exists_last (l := first :: rest)) as (front & final_entry & Hsplit);
      [discriminate |].
    rewrite Hsplit in Hnewest. rewrite last_snoc in Hnewest.
    injection Hnewest as ->. rewrite Hsplit, app_assoc, length_app. simpl.
    replace (Z.of_nat (length (history (state w) ++ front) + 1) - 1)
      with (Z.of_nat (length (history (state w) ++ front))) by lia.
    apply at_index_app_last. }
  split; [exact Hh |].
  split; [rewrite Hiu, Hi; lia |].
  destruct (length rest) as [| k] eqn:Hk.
  - (* a single checkpoint: nothing to undo *)
    subst final undone. simpl.
    split; [reflexivity |]. split; [reflexivity |].
    split; [exact Hentry |].
    rewrite Hshown. apply same_pixels_refl.
  - subst final.
    change (Nat.iter (S k) redo_step undone)
      with (redo_step (Nat.iter k redo_step undone)).
    destruct (redo_steps_spec c k undone Hcu) as [Hfr Hir];
      [rewrite Hiu, Hi; lia | rewrite Hhu, Hiu, Hi; lia |].
    set (before := Nat.iter k redo_step undone) in *.
    assert (Hcb : canvasRef before = Some c).
    { destruct Hfr as [Hr _]. congruence. }
    assert (Hhb : history (state before) = history (state pushed)).
    { destruct Hfr as (_ & Hr & _). congruence. }
    destruct (redo_step_spec c before Hcb) as (Hf & Hidx & Hpix).
    { rewrite Hhb, Hir, Hiu, Hi. lia. }
    assert (Hback : historyIndex (state (redo_step before))
                    = historyIndex (state pushed)).
    { rewrite Hidx, Hir, Hiu, Hi. lia. }
    assert (Hhf : history (state (redo_step before)) = history (state pushed)).
    { destruct Hf as (_ & Hr & _). congruence. }
    split; [exact Hhf |].
    split; [exact Hback |].
    split; [rewrite Hhf, Hback; exact Hentry |].
    apply Hpix.
    + rewrite Hhb. replace (historyIndex (state before) + 1)
        with (historyIndex (state pushed)) by lia. exact Hentry.
    + destruct Hfr as (_ & _ & Hwd & _). destruct Hfu as (_ & _ & Hwd' & _).
      rewrite Hwd, Hwd', Hshown. reflexivity.
    + destruct Hfr as (_ & _ & _ & Hht). destruct Hfu as (_ & _ & _ & Hht').
      rewrite Hht, Hht', Hshown. reflexivity.
Qed.

Lemma undo_redo_round_trip_witness :
  canvasRef editor_world = Some 0%nat /\
  historyIndex (state editor_world)
  = Z.of_nat (length (history (state editor_world))) - 1 /\
  let first := all_black 100 100 in
  let rest := [all_white 100 100] in
  let pushed := fold_left checkpoint (first :: rest) editor_world in
  let undone := Nat.iter (length rest) undo_step pushed in
  let final := Nat.iter (length rest) redo_step undone in
  same_pixels (bitmap (document final 0)) (default first (last rest)) /\
  pixelAt (bitmap (document undone 0)) 7 9 = black /\
  pixelAt (bitmap (document final 0)) 7 9 = white.
Proof.
  assert (Hcanvas : canvasRef editor_world = Some 0%nat) by reflexivity.
  assert (Htip : historyIndex (state editor_world)
                 = Z.of_nat (length (history (state editor_world))) - 1)
    by reflexivity.
  split; [exact Hcanvas |].
  split; [exact Htip |].
  intros first rest pushed undone final.
  split.
  - apply (undo_redo_round_trip editor_world 0 first rest Hcanvas Htip).
  - split; vm_compute; reflexivity.
Defined.

(** ** Compositing the layers *)

Lemma forEach_filter {A} (keep : A -> bool) (f : A -> Handler unit) (l : list A) (w : World) :
  forEach l (fun a => if keep a then f a else skip) w
  = forEach (List.filter keep l) f w.
Proof.
  revert w. induction l as [| a l IH]; intros w; [reflexivity |].
  simpl. destruct (keep a); simpl.
  - unfold bind. destruct (f a w) as [[[] | e] w']; [apply IH | reflexivity].
  - unfold bind, skip, ret. apply IH.
Qed.

Lemma whitened_pixels (c : nat) (w : World) :
  same_pixels (bitmap (document (whitened c w) c))
    (all_white (width (bitmap (document w c))) (height (bitmap (document w c)))).
Proof.
  unfold whitened, clearRect, assign_fillStyle, fillRect, on_canvas, bind.
  cbn -[update_canvas]. rewrite !document_update_same.
  split; [reflexivity |]. split; [reflexivity |].
  intros u v. unfold pixelAt, inside. cbn -[source_over in_rect].
  unfold in_rect. rewrite !Z.add_0_l.
  destruct ((0 <=? u) && (u <? width (bitmap (document w c))) &&
            (0 <=? v) && (v <? height (bitmap (document w c))));
    [apply white_over | reflexivity].
Qed.

Lemma redrawCanvas_unfold (r : State) (w : World) (c : nat) :
  canvasRef w = Some c ->
  redrawCanvas r w = forEach (List.filter visible (layers r)) (overlay c) (whitened c w).
Proof.
  intros Hcanvas. unfold redrawCanvas, bind at 1, canvasRef_current.
  rewrite Hcanvas. unfold bind at 1, read.
  rewrite <- forEach_filter. reflexivity.
Qed.

Section HiddenCanvas.

Variable c q : nat.
Hypothesis Hother : c <> q.





End HiddenCanvas.



(** ** The layer stack *)

Lemma filter_index_keeps_all {A} (l : list A) (k index : Z) :
  index < k -> filter_index (fun i => negb (i =? index)) k l = l.
Proof.
  revert k. induction l as [| a l IH]; intros k Hlt; [reflexivity |].
  simpl. destruct (Z.eqb_spec k index); [lia |].
  simpl. rewrite IH by lia. reflexivity.
Qed.

Lemma filter_index_delete {A} (l : list A) (k index : Z) :
  k <= index < k + Z.of_nat (length l) ->
  filter_index (fun i => negb (i =? index)) k l = delete (Z.to_nat (index - k)) l.
Proof.
  revert k. induction l as [| a l IH]; intros k Hrange; simpl in Hrange; [lia |].
  simpl. destruct (Z.eqb_spec k index) as [-> | Hne]; simpl.
  - rewrite Z.sub_diag. simpl. apply filter_index_keeps_all. lia.
  - rewrite IH by lia.
    replace (Z.to_nat (index - k)) with (S (Z.to_nat (index - (k + 1)))) by lia.
    reflexivity.
Qed.

Lemma forEach_state {A} (f : A -> Handler unit) (l : list A) :
  (forall a w, state (f a w).2 = state w) ->
  forall w, state (forEach l f w).2 = state w.
Proof.
  intros Hf. induction l as [| a l IH]; intros w; [reflexivity |].
  simpl. unfold bind. specialize (Hf a w).
  destruct (f a w) as [[[] | e] w']; simpl in *; [rewrite IH |]; exact Hf.
Qed.

Lemma overlay_state (c : nat) (layer : Layer) (w : World) :
  state (overlay c layer w).2 = state w.
Proof.
  unfold overlay. destruct (canvas layer) as [lc |]; [| reflexivity].
  unfold bind, read, drawImage. simpl.
  destruct ((width (bitmap (document w lc)) =? 0)
            || (height (bitmap (document w lc)) =? 0)); reflexivity.
Qed.

Lemma redrawCanvas_state (r : State) (w : World) :
  state (redrawCanvas r w).2 = state w.
Proof.
  destruct (canvasRef w) as [c |] eqn:Hcanvas.
  - rewrite (redrawCanvas_unfold r w c Hcanvas).
    rewrite forEach_state by apply overlay_state. reflexivity.
  - unfold redrawCanvas, bind, canvasRef_current. rewrite Hcanvas. reflexivity.
Qed.

(** C4, as the code has it. With a single layer [deleteLayer] does nothing
    and throws nothing: the world is left as it is.  With more than one
    layer, a valid [index] and a valid active index, exactly the layer at
    [index] is removed, and the active index, lowered by one (not below 0)
    when it is at or above [index], is a valid index of the shorter stack. *)
Theorem deleteLayer_guarded (w : World) (index : Z) :
  let s := state w in
  let n := Z.of_nat (length (layers s)) in
  let s' := state (run (fun r => deleteLayer r index) w).2 in
  (n <= 1 -> run (fun r => deleteLayer r index) w = (Done tt, w)) /\
  (1 < n ->
   0 <= index < n ->
   0 <= activeLayerIndex s < n ->
   layers s' = delete (Z.to_nat index) (layers s) /\
   Z.of_nat (length (layers s')) = n - 1 /\
   activeLayerIndex s' =
     (if index <=? activeLayerIndex s
      then Z.max 0 (activeLayerIndex s - 1) else activeLayerIndex s) /\
   0 <= activeLayerIndex s' < Z.of_nat (length (layers s'))).
Proof.
  intros s n s'. split.
  - intros Hone. unfold run, deleteLayer. fold s. fold n.
    destruct (Z.ltb_spec 1 n); [lia | reflexivity].
  - intros Hmany Hindex Hactive.
    assert (Hlayers : layers s' = delete (Z.to_nat index) (layers s)).
    { subst s'. unfold run, deleteLayer. fold s. fold n.
      destruct (Z.ltb_spec 1 n); [| lia].
      unfold bind at 1. cbn [setLayers modify].
      unfold bind at 1.
      destruct (index <=? activeLayerIndex s); cbn [setActiveLayerIndex modify skip ret];
        rewrite redrawCanvas_state; cbn;
        rewrite filter_index_delete by (fold s; fold n; lia);
        rewrite Z.sub_0_r; reflexivity. }
    assert (Hidx : activeLayerIndex s' =
                   (if index <=? activeLayerIndex s
                    then Z.max 0 (activeLayerIndex s - 1) else activeLayerIndex s)).
    { subst s'. unfold run, deleteLayer. fold s. fold n.
      destruct (Z.ltb_spec 1 n); [| lia].
      unfold bind at 1. cbn [setLayers modify].
      unfold bind at 1.
      destruct (index <=? activeLayerIndex s); cbn [setActiveLayerIndex modify skip ret];
        rewrite redrawCanvas_state; reflexivity. }
    assert (Hlen : Z.of_nat (length (layers s')) = n - 1).
    { rewrite Hlayers, length_delete.
      - subst n. lia.
      - apply lookup_lt_is_Some_2. subst n. lia. }
    split; [exact Hlayers |]. split; [exact Hlen |]. split; [exact Hidx |].
    rewrite Hidx, Hlen.
    destruct (Z.leb_spec index (activeLayerIndex s)); lia.
Qed.

Lemma deleteLayer_guarded_witness :
  run (fun r => deleteLayer r 0) editor_world = (Done tt, editor_world) /\
  map id (layers (state (run (fun r => deleteLayer r 0) two_layer_world).2))
  = ["layer-2"] /\
  activeLayerIndex (state two_layer_world) = 1 /\
  activeLayerIndex (state (run (fun r => deleteLayer r 0) two_layer_world).2) = 0.
Proof.
  destruct (deleteLayer_guarded editor_world 0) as [Hone _].
  destruct (deleteLayer_guarded two_layer_world 0) as [_ Hmany].
  destruct Hmany as (Hlayers & _ & Hactive & _); [simpl; lia .. |].
  split; [apply Hone; simpl; lia |].
  split; [rewrite Hlayers; reflexivity |].
  split; [reflexivity |].
  rewrite Hactive. reflexivity.
Defined.

(** C4 as stated fails: deleting the only layer is refused in silence, no
    error is raised. *)
Lemma deleteLayer_only_layer_no_error :
  length (layers (state editor_world)) = 1%nat /\
  (run (fun r => deleteLayer r 0) editor_world).1 = Done tt /\
  ~ (exists e, (run (fun r => deleteLayer r 0) editor_world).1 = Thrown e).
Proof.
  split; [reflexivity |].
  split; [reflexivity |].
  intros [e He]. discriminate He.
Qed.

(** C5 fails on the code: add a layer, delete the first one, add a layer
    again; the ids are made from the length of the stack, so the stack now
    holds the id "layer-2" twice. *)
Theorem layer_ids_collide :
  layer_ids editor_world = ["layer-1"] /\
  layer_ids two_layer_world = ["layer-1"; "layer-2"] /\
  layer_ids readded_world = ["layer-2"; "layer-2"] /\
  ~ NoDup (layer_ids readded_world).
Proof.
  assert (Hids : layer_ids readded_world = ["layer-2"; "layer-2"])
    by (vm_compute; reflexivity).
  split; [vm_compute; reflexivity |].
  split; [vm_compute; reflexivity |].
  split; [exact Hids |].
  rewrite Hids. intros Hnodup.
  apply NoDup_cons in Hnodup as [Hnotin _].
  apply Hnotin. left.
Qed.

(** ** Resizing *)

(** C9, as the code has it. When the canvas has pixels and a container,
    [handleResize] gives it the client size of the container; every pixel of
    the new bitmap that was also in the old one keeps its content, and every
    newly exposed pixel is transparent black (the handler does not fill). *)
Theorem handleResize_keeps_overlap (w : World) (c : nat) (newWidth newHeight : Z) :
  canvasRef w = Some c ->
  parentElement (document w c) = Some (newWidth, newHeight) ->
  0 < width (bitmap (document w c)) ->
  0 < height (bitmap (document w c)) ->
  let old := bitmap (document w c) in
  let resized := bitmap (document (handleResize w).2 c) in
  (handleResize w).1 = Done tt /\
  width resized = newWidth /\
  height resized = newHeight /\
  (forall u v, inside resized u v = true -> inside old u v = true ->
     pixelAt resized u v = pixelAt old u v) /\
  (forall u v, inside resized u v = true -> inside old u v = false ->
     pixelAt resized u v = Clear).
Proof.
  intros Hcanvas Hparent Hw Hh old resized.
  assert (Hrun : handleResize w =
    (Done tt,
     update_canvas c (with_bitmap (fun b =>
         put_image_data b (get_image_data old 0 0 (width old) (height old)) 0 0))
       (update_canvas c (assign_height newHeight)
          (update_canvas c (assign_width newWidth) w)))).
  { unfold handleResize, bind at 1, canvasRef_current.
    rewrite Hcanvas. unfold bind at 1, read. rewrite Hparent.
    unfold getImageData.
    destruct (Z.eqb_spec (width (bitmap (document w c))) 0) as [Hz | _]; [lia |].
    destruct (Z.eqb_spec (height (bitmap (document w c))) 0) as [Hz | _]; [lia |].
    reflexivity. }
  subst resized. rewrite Hrun. cbn [fst snd].
  rewrite !document_update_same.
  split; [reflexivity |]. split; [reflexivity |]. split; [reflexivity |].
  split.
  - intros u v Hnew Hold. unfold pixelAt at 1. rewrite Hnew.
    cbn -[pixelAt inside]. rewrite !Z.sub_0_r, !Z.add_0_l.
    change (inside (get_image_data old 0 0 (width old) (height old)) u v)
      with (inside old u v).
    rewrite Hold. reflexivity.
  - intros u v Hnew Hold. unfold pixelAt at 1. rewrite Hnew.
    cbn -[pixelAt inside]. rewrite !Z.sub_0_r.
    change (inside (get_image_data old 0 0 (width old) (height old)) u v)
      with (inside old u v).
    rewrite Hold. reflexivity.
Qed.

Lemma handleResize_keeps_overlap_witness :
  canvasRef resized_container = Some 0%nat /\
  parentElement (document resized_container 0) = Some (200, 50) /\
  0 < width (bitmap (document resized_container 0)) /\
  0 < height (bitmap (document resized_container 0)) /\
  width (bitmap (document (handleResize resized_container).2 0)) = 200 /\
  height (bitmap (document (handleResize resized_container).2 0)) = 50 /\
  pixelAt (bitmap (document (handleResize resized_container).2 0)) 99 49 = white.
Proof.
  assert (Hcanvas : canvasRef resized_container = Some 0%nat) by reflexivity.
  assert (Hparent : parentElement (document resized_container 0) = Some (200, 50))
    by reflexivity.
  assert (Hw : 0 < width (bitmap (document resized_container 0)))
    by (vm_compute; reflexivity).
  assert (Hh : 0 < height (bitmap (document resized_container 0)))
    by (vm_compute; reflexivity).
  destruct (handleResize_keeps_overlap resized_container 0 200 50 Hcanvas Hparent Hw Hh)
    as (_ & Hwidth & Hheight & Hkept & _).
  repeat (split; [assumption |]).
  rewrite (Hkept 99 49); vm_compute; reflexivity.
Defined.

(** C9 as stated fails: a 100 x 100 white canvas resized to 200 x 50 keeps
    its top-left 100 x 50 pixels, but the pixel (150, 10), newly exposed, is
    transparent, not opaque white. *)
Lemma handleResize_exposes_transparent :
  let old := bitmap (document resized_container 0) in
  let resized := bitmap (document (handleResize resized_container).2 0) in
  (width old, height old) = (100, 100) /\
  (width resized, height resized) = (200, 50) /\
  pixelAt resized 50 10 = white /\
  inside resized 150 10 = true /\
  pixelAt resized 150 10 = Clear /\
  pixelAt resized 150 10 <> white.
Proof.
  repeat split; try (vm_compute; reflexivity).
  vm_compute. discriminate.
Qed.

(** ** Pointer input *)

(** A world that differs from [w] neither in a bitmap nor in the history. *)
Ltac same_canvas_and_log :=
  repeat split; try reflexivity;
  intros; cbn;
  repeat match goal with
         | |- context [Nat.eqb ?a ?b] => destruct (Nat.eqb a b)
         end;
  reflexivity.

Lemma first_touch_pure (touches : list Touch) (w : World) :
  (first_touch touches w).2 = w.
Proof. destruct touches; reflexivity. Qed.

Lemma touch_point_pure (touch : Touch) (w : World) :
  exists p, touch_point touch w = (Done p, w).
Proof.
  unfold touch_point, bind, canvasRef_current.
  destruct (canvasRef w); eexists; reflexivity.
Qed.

Lemma getCoordinates_pure (e : PointerEvent) (w : World) :
  (getCoordinates e w).2 = w.
Proof.
  unfold getCoordinates, bind, canvasRef_current.
  destruct e as [mx my | [| t ts]]; simpl; try reflexivity;
    destruct (canvasRef w); reflexivity.
Qed.

Lemma begin_gesture_quiet (r : State) (point : Point) (w : World) :
  let w' := (begin_gesture r point w).2 in
  (forall c, bitmap (document w' c) = bitmap (document w c)) /\
  history (state w') = history (state w) /\
  historyIndex (state w') = historyIndex (state w).
Proof.
  unfold begin_gesture, bind, setIsDrawing, setStartPoint, modify, canvasRef_current.
  cbn [fst snd with_state canvasRef].
  destruct (is_freehand (drawingMode r)), (canvasRef w) as [c0 |];
    try same_canvas_and_log.
  unfold getImageData, read. cbn [document with_state].
  destruct ((width (bitmap (document w c0)) =? 0)
            || (height (bitmap (document w c0)) =? 0));
    same_canvas_and_log.
Qed.

(** C10. While no gesture is open ([isDrawing] false in the render), a move
    event returns at once: the world, with every canvas, is what it was; an
    up, leave or touch-end event commits nothing: the world, with the log
    and its cursor, is what it was; and whatever event the canvas receives
    in that state, no bitmap and no part of the history changes. *)
Theorem idle_pointer_events_are_inert (covers : Rasteriser) (r : State) (w : World) :
  isDrawing r = false ->
  (forall e, draw covers r e w = (Done tt, w)) /\
  (forall touches, handleTouchMove covers r touches w = (Done tt, w)) /\
  stopDrawing r w = (Done tt, w) /\
  handleTouchEnd r w = (Done tt, w) /\
  (forall ev,
     let w' := (dispatch covers r ev w).2 in
     (forall c, bitmap (document w' c) = bitmap (document w c)) /\
     history (state w') = history (state w) /\
     historyIndex (state w') = historyIndex (state w)).
Proof.
  intros Hidle.
  assert (Hdraw : forall e, draw covers r e w = (Done tt, w)).
  { intros e. unfold draw. rewrite Hidle. reflexivity. }
  assert (Hmove : forall touches, handleTouchMove covers r touches w = (Done tt, w)).
  { intros touches. unfold handleTouchMove. rewrite Hidle. reflexivity. }
  assert (Hstop : stopDrawing r w = (Done tt, w)).
  { unfold stopDrawing. rewrite Hidle. reflexivity. }
  assert (Hend : handleTouchEnd r w = (Done tt, w)).
  { unfold handleTouchEnd. rewrite Hidle. reflexivity. }
  repeat (split; [assumption |]).
  intros [e | e | | | touches | touches |]; cbn [dispatch].
  - unfold startDrawing, bind.
    pose proof (getCoordinates_pure e w) as Hpure.
    destruct (getCoordinates e w) as [[point | exn] w0]; simpl in Hpure; subst w0.
    + apply begin_gesture_quiet.
    + same_canvas_and_log.
  - rewrite Hdraw. same_canvas_and_log.
  - rewrite Hstop. same_canvas_and_log.
  - rewrite Hstop. same_canvas_and_log.
  - unfold handleTouchStart, bind.
    pose proof (first_touch_pure touches w) as Hpure.
    destruct (first_touch touches w) as [[touch | exn] w0]; simpl in Hpure; subst w0.
    + destruct (touch_point_pure touch w) as [point Hpoint]. rewrite Hpoint.
      apply begin_gesture_quiet.
    + same_canvas_and_log.
  - rewrite Hmove. same_canvas_and_log.
  - rewrite Hend. same_canvas_and_log.
Qed.

Lemma idle_pointer_events_are_inert_witness :
  isDrawing (state editor_world) = false /\
  draw plain_raster (state editor_world) (MouseEvent 40 40) editor_world
  = (Done tt, editor_world) /\
  stopDrawing (state editor_world) editor_world = (Done tt, editor_world) /\
  handleTouchEnd (state editor_world) editor_world = (Done tt, editor_world).
Proof.
  assert (Hidle : isDrawing (state editor_world) = false) by reflexivity.
  destruct (idle_pointer_events_are_inert plain_raster (state editor_world)
              editor_world Hidle) as (Hdraw & _ & Hstop & Hend & _).
  split; [exact Hidle |].
  split; [apply Hdraw |].
  split; [exact Hstop | exact Hend].
Defined.

(** *** The points handed to the context *)

Section OpenGesture.

Variable covers : Rasteriser.
Variable w : World.
Variable c : nat.
Hypothesis Hcanvas : canvasRef w = Some c.

(** The point of an event, relative to the origin of the canvas. *)
Let relative (cx cy : Z) : Point :=
  mkPoint (cx - rect_left (document w c)) (cy - rect_top (document w c)).

Lemma getCoordinates_mouse (mx my : Z) :
  getCoordinates (MouseEvent mx my) w = (Done (relative mx my), w).
Proof.
  unfold getCoordinates, bind, canvasRef_current, ret. rewrite Hcanvas.
  reflexivity.
Qed.

Lemma getCoordinates_touch (t : Touch) (ts : list Touch) :
  getCoordinates (TouchEvent (t :: ts)) w
  = (Done (relative (clientX t) (clientY t)), w).
Proof.
  unfold getCoordinates, bind. cbn [first_touch ret canvasRef_current].
  rewrite Hcanvas. reflexivity.
Qed.

Lemma touch_point_relative (t : Touch) :
  touch_point t w = (Done (relative (clientX t) (clientY t)), w).
Proof.
  unfold touch_point, bind, canvasRef_current. rewrite Hcanvas. reflexivity.
Qed.

Lemma extend_gesture_freehand (r : State) (p : Point) :
  is_freehand (drawingMode r) = true ->
  extend_gesture covers r p w =
  (Done tt,
   update_canvas c (fun cv => with_bitmap (stroke_bitmap covers (context cv)) cv)
     (update_canvas c (with_context (set_path (fun cmds => cmds ++ [PLineTo p]))) w)).
Proof.
  intros Hmode. unfold extend_gesture, bind at 1, canvasRef_current.
  rewrite Hcanvas, Hmode. reflexivity.
Qed.


End OpenGesture.

(** C8, as the code has it. With the canvas mounted and a gesture open, the
    point [draw] and [handleTouchMove] work with is the client position of
    the event minus the origin of the canvas, not clamped; in pen or eraser
    mode that very point is appended to the path by [lineTo], wherever it
    lies, and nothing is thrown. *)
Theorem draw_passes_raw_coordinates (covers : Rasteriser) (r : State) (w : World)
    (c : nat) (mx my : Z) (t : Touch) (ts : list Touch) :
  canvasRef w = Some c ->
  isDrawing r = true ->
  let relative cx cy :=
    mkPoint (cx - rect_left (document w c)) (cy - rect_top (document w c)) in
  draw covers r (MouseEvent mx my) w = extend_gesture covers r (relative mx my) w /\
  draw covers r (TouchEvent (t :: ts)) w
  = extend_gesture covers r (relative (clientX t) (clientY t)) w /\
  handleTouchMove covers r (t :: ts) w
  = extend_gesture covers r (relative (clientX t) (clientY t)) w /\
  (is_freehand (drawingMode r) = true ->
   forall p : Point,
     (extend_gesture covers r p w).1 = Done tt /\
     path (context (document (extend_gesture covers r p w).2 c))
     = path (context (document w c)) ++ [PLineTo p]).
Proof.
  intros Hcanvas Hopen relative.
  split; [| split; [| split]].
  - unfold draw. rewrite Hopen. cbn [negb]. unfold bind at 1.
    rewrite (getCoordinates_mouse w c Hcanvas). reflexivity.
  - unfold draw. rewrite Hopen. cbn [negb]. unfold bind at 1.
    rewrite (getCoordinates_touch w c Hcanvas). reflexivity.
  - unfold handleTouchMove. rewrite Hopen. cbn [negb].
    unfold bind at 1. cbn [first_touch ret]. unfold bind at 1.
    rewrite (touch_point_relative w c Hcanvas). reflexivity.
  - intros Hmode p.
    rewrite (extend_gesture_freehand covers w c Hcanvas r p Hmode).
    split; [reflexivity |].
    cbn [snd]. rewrite !document_update_same. reflexivity.
Qed.

Lemma draw_passes_raw_coordinates_witness :
  canvasRef gesture_world = Some 0%nat /\
  isDrawing (state gesture_world) = true /\
  path (context (document
    (draw plain_raster (state gesture_world) (MouseEvent 30 20) gesture_world).2 0))
  = [PMoveTo (mkPoint 10 10); PLineTo (mkPoint 30 20)].
Proof.
  assert (Hcanvas : canvasRef gesture_world = Some 0%nat) by reflexivity.
  assert (Hopen : isDrawing (state gesture_world) = true) by reflexivity.
  destruct (draw_passes_raw_coordinates plain_raster (state gesture_world)
              gesture_world 0 30 20 (mkTouch 0 0) [] Hcanvas Hopen)
    as (Hdraw & _ & _ & Hpen).
  split; [exact Hcanvas |].
  split; [exact Hopen |].
  rewrite Hdraw.
  destruct (Hpen eq_refl (mkPoint (30 - rect_left (document gesture_world 0))
                                  (20 - rect_top (document gesture_world 0))))
    as [_ Hpath].
  rewrite Hpath. reflexivity.
Defined.

(** C8 as stated fails: with a pen gesture open on the 100 x 100 canvas, a
    move event at client position (-5, 3) makes [draw] hand the point
    (-5, 3), which is outside the surface, to [lineTo]. *)
Lemma draw_reaches_outside_surface :
  let result := run (fun r => draw plain_raster r (MouseEvent (-5) 3)) gesture_world in
  let surface := bitmap (document result.2 0) in
  let handed := path_points (path (context (document result.2 0))) in
  result.1 = Done tt /\
  (width surface, height surface) = (100, 100) /\
  handed = [mkPoint 10 10; mkPoint (-5) 3] /\
  ~ on_surface surface (mkPoint (-5) 3) /\
  ~ (forall p, In p handed -> on_surface surface p).
Proof.
  intros result surface handed.
  assert (Hdone : result.1 = Done tt) by (vm_compute; reflexivity).
  assert (Hsize : (width surface, height surface) = (100, 100))
    by (vm_compute; reflexivity).
  assert (Hhanded : handed = [mkPoint 10 10; mkPoint (-5) 3])
    by (vm_compute; reflexivity).
  assert (Houtside : ~ on_surface surface (mkPoint (-5) 3)).
  { unfold on_surface. cbn [x y]. lia. }
  repeat (split; [assumption |]).
  intros Hall. apply Houtside, Hall. rewrite Hhanded. right. left. reflexivity.
Qed.

(** *** The rectangle preview *)





(** * Further properties of the engine *)

(** ** The history log *)

Lemma saveToHistory_effect (r : State) (w : World) (c : nat) :
  canvasRef w = Some c ->
  let w' := (saveToHistory r w).2 in
  (saveToHistory r w).1 = Done tt /\
  history (state w') =
    (if historyIndex r <? Z.of_nat (length (history r)) - 1
     then slice (history (state w)) 0 (historyIndex r + 1)
     else history (state w)) ++ [bitmap (document w c)] /\
  historyIndex (state w') = historyIndex (state w) + 1 /\
  isDrawing (state w') = isDrawing (state w) /\
  layers (state w') = layers (state w) /\
  activeLayerIndex (state w') = activeLayerIndex (state w) /\
  document w' = document w /\
  canvasRef w' = canvasRef w.
Proof.
  intros Hcanvas. unfold saveToHistory, bind, canvasRef_current.
  destruct (canvasRef w) eqn:Href; [| discriminate].
  injection Hcanvas as ->. simpl.
  destruct (historyIndex r <? _); cbn; repeat split; congruence.
Qed.

Lemma onload_state (img : Bitmap) (w : World) : state (onload img w).2 = state w.
Proof.
  unfold onload, bind, canvasRef_current, read, clearRect, drawImage, on_canvas.
  destruct (canvasRef w); [| reflexivity]. cbn -[update_canvas].
  destruct ((width img =? 0) || (height img =? 0)); reflexivity.
Qed.

Lemma deliver_state (src : option (option DataURL)) (w : World) :
  state (deliver src w).2 = state w.
Proof.
  destruct src as [[img |] |]; try reflexivity.
  simpl. destruct (loads img); [apply onload_state | reflexivity].
Qed.

Lemma undo_step_state (w : World) :
  historyIndex (state (undo_step w)) =
    (if 0 <? historyIndex (state w) then historyIndex (state w) - 1
     else historyIndex (state w)) /\
  history (state (undo_step w)) = history (state w).
Proof.
  unfold undo_step, run, handleUndo.
  destruct (0 <? historyIndex (state w)).
  - unfold bind, ret. cbn -[deliver]. rewrite deliver_state. split; reflexivity.
  - unfold ret. cbn -[deliver]. split; reflexivity.
Qed.

Lemma redo_step_state (w : World) :
  historyIndex (state (redo_step w)) =
    (if historyIndex (state w) <? Z.of_nat (length (history (state w))) - 1
     then historyIndex (state w) + 1 else historyIndex (state w)) /\
  history (state (redo_step w)) = history (state w).
Proof.
  unfold redo_step, run, handleRedo.
  destruct (historyIndex (state w) <? Z.of_nat (length (history (state w))) - 1).
  - unfold bind, ret. cbn -[deliver]. rewrite deliver_state. split; reflexivity.
  - unfold ret. cbn -[deliver]. split; reflexivity.
Qed.

Lemma commit_reachable (h h' : list Bitmap) (i i' : Z) (closure_i closure_len : Z) (b : Bitmap) :
  closure_i = i -> closure_len = Z.of_nat (length h) ->
  (h = [] /\ i = -1) \/ 0 <= i <= Z.of_nat (length h) - 1 ->
  h' = (if closure_i <? closure_len - 1 then slice h 0 (closure_i + 1) else h) ++ [b] ->
  i' = i + 1 ->
  0 <= i' <= Z.of_nat (length h') - 1 /\ i' = Z.of_nat (length h') - 1.
Proof.
  intros -> -> Hlog -> ->.
  destruct (Z.ltb_spec i (Z.of_nat (length h) - 1)).
  - rewrite slice_prefix by lia. rewrite length_app, length_take. cbn [length].
    destruct Hlog as [[-> ->] | Hrange]; simpl in *; lia.
  - rewrite length_app. cbn [length].
    destruct Hlog as [[-> ->] | Hrange]; simpl in *; lia.
Qed.

Lemma saveToHistory_reachable (r : State) (w : World) :
  history (state w) = history r ->
  historyIndex (state w) = historyIndex r ->
  log_reachable r ->
  log_reachable (state (saveToHistory r w).2).
Proof.
  intros Hh Hi Hlog.
  destruct (canvasRef w) as [c |] eqn:Hcanvas.
  - destruct (saveToHistory_effect r w c Hcanvas) as (_ & Hhist & Hcur & _).
    right.
    apply (commit_reachable (history (state w)) _ (historyIndex (state w)) _
             (historyIndex r) (Z.of_nat (length (history r)))
             (bitmap (document w c))); try congruence.
    unfold log_reachable in Hlog. rewrite Hh, Hi. exact Hlog.
  - unfold saveToHistory, bind, canvasRef_current. rewrite Hcanvas. simpl.
    unfold log_reachable. rewrite Hh, Hi. exact Hlog.
Qed.

Lemma extend_gesture_state (covers : Rasteriser) (r : State) (p : Point) (w : World) :
  state (extend_gesture covers r p w).2 = state w.
Proof.
  unfold extend_gesture, bind, canvasRef_current.
  destruct (canvasRef w) as [c |]; [| reflexivity].
  destruct (is_freehand (drawingMode r)); [reflexivity |].
  destruct (startPoint r), (shapePreviewImage r); try reflexivity.
  destruct (drawingMode r); reflexivity.
Qed.

Lemma dispatch_moves_keep_state (covers : Rasteriser) (r : State) (w : World) :
  (forall e, state (draw covers r e w).2 = state w) /\
  (forall touches, state (handleTouchMove covers r touches w).2 = state w).
Proof.
  split.
  - intros e. unfold draw. destruct (isDrawing r); [| reflexivity].
    cbn [negb]. unfold bind at 1.
    pose proof (getCoordinates_pure e w) as Hpure.
    destruct (getCoordinates e w) as [[p | exn] w0]; simpl in Hpure; subst w0;
      [apply extend_gesture_state | reflexivity].
  - intros touches. unfold handleTouchMove. destruct (isDrawing r); [| reflexivity].
    cbn [negb]. unfold bind at 1.
    pose proof (first_touch_pure touches w) as Hpure.
    destruct (first_touch touches w) as [[t | exn] w0]; simpl in Hpure; subst w0;
      [| reflexivity].
    unfold bind at 1. destruct (touch_point_pure t w) as [p Hp]. rewrite Hp.
    apply extend_gesture_state.
Qed.

Lemma stopDrawing_reachable (w : World) :
  log_reachable (state w) -> log_reachable (state (run stopDrawing w).2).
Proof.
  intros Hlog. unfold run, stopDrawing.
  destruct (isDrawing (state w)); [| exact Hlog].
  unfold bind at 1. cbn [setIsDrawing modify]. unfold bind at 1.
  cbn [setShapePreviewImage modify].
  apply saveToHistory_reachable; [reflexivity | reflexivity | exact Hlog].
Qed.

Lemma pointer_down_keeps_log (r : State) (w : World) :
  (forall e,
     history (state (startDrawing r e w).2) = history (state w) /\
     historyIndex (state (startDrawing r e w).2) = historyIndex (state w)) /\
  (forall touches,
     history (state (handleTouchStart r touches w).2) = history (state w) /\
     historyIndex (state (handleTouchStart r touches w).2) = historyIndex (state w)).
Proof.
  split.
  - intros e. unfold startDrawing, bind.
    pose proof (getCoordinates_pure e w) as Hpure.
    destruct (getCoordinates e w) as [[point | exn] w0]; simpl in Hpure; subst w0;
      [| split; reflexivity].
    destruct (begin_gesture_quiet r point w) as (_ & Hh & Hi). split; assumption.
  - intros touches. unfold handleTouchStart, bind.
    pose proof (first_touch_pure touches w) as Hpure.
    destruct (first_touch touches w) as [[touch | exn] w0]; simpl in Hpure; subst w0;
      [| split; reflexivity].
    destruct (touch_point_pure touch w) as [point Hpoint]. rewrite Hpoint.
    destruct (begin_gesture_quiet r point w) as (_ & Hh & Hi). split; assumption.
Qed.

(** X1. The shape of the log is kept by everything that touches it: if the
    log is empty with the cursor at -1, or the cursor is on an entry, the
    same holds after a commit, an undo or a redo click (with its image
    load), a clear, and after any event on the canvas. *)
Theorem history_log_invariant (covers : Rasteriser) (w : World) :
  log_reachable (state w) ->
  log_reachable (state (run saveToHistory w).2) /\
  log_reachable (state (undo_step w)) /\
  log_reachable (state (redo_step w)) /\
  log_reachable (state (run handleClearCanvas w).2) /\
  (forall ev, log_reachable (state (handle covers w ev))).
Proof.
  intros Hlog.
  split; [apply saveToHistory_reachable; [reflexivity | reflexivity | exact Hlog] |].
  split.
  { destruct (undo_step_state w) as [Hi Hh]. unfold log_reachable in *.
    rewrite Hi, Hh. destruct (Z.ltb_spec 0 (historyIndex (state w))); [| exact Hlog].
    right. destruct Hlog as [[_ Hneg] | Hrange]; lia. }
  split.
  { destruct (redo_step_state w) as [Hi Hh]. unfold log_reachable in *.
    rewrite Hi, Hh.
    destruct (Z.ltb_spec (historyIndex (state w))
                (Z.of_nat (length (history (state w))) - 1)); [| exact Hlog].
    right. destruct Hlog as [[Hempty Hneg] | Hrange]; [| lia].
    rewrite Hempty in *. simpl in *. lia. }
  split.
  { unfold run, handleClearCanvas, bind at 1, canvasRef_current.
    destruct (canvasRef w) as [c |]; [| exact Hlog].
    unfold bind at 1, read. unfold bind at 1. cbn [assign_fillStyle on_canvas].
    unfold bind at 1. cbn [fillRect on_canvas].
    apply saveToHistory_reachable; [reflexivity | reflexivity | exact Hlog]. }
  intros ev. unfold handle, run.
  destruct ev as [e | e | | | touches | touches |]; cbn [dispatch].
  - destruct (pointer_down_keeps_log (state w) w) as [Hdown _].
    destruct (Hdown e) as [Hh Hi]. unfold log_reachable in *.
    rewrite Hh, Hi. exact Hlog.
  - destruct (dispatch_moves_keep_state covers (state w) w) as [Hdraw _].
    rewrite Hdraw. exact Hlog.
  - apply stopDrawing_reachable. exact Hlog.
  - apply stopDrawing_reachable. exact Hlog.
  - destruct (pointer_down_keeps_log (state w) w) as [_ Hdown].
    destruct (Hdown touches) as [Hh Hi]. unfold log_reachable in *.
    rewrite Hh, Hi. exact Hlog.
  - destruct (dispatch_moves_keep_state covers (state w) w) as [_ Hmove].
    rewrite Hmove. exact Hlog.
  - apply stopDrawing_reachable. exact Hlog.
Qed.

Lemma history_log_invariant_witness :
  log_reachable (state branched_world) /\
  log_reachable (state (run saveToHistory branched_world).2) /\
  log_reachable (state (undo_step branched_world)).
Proof.
  assert (Hlog : log_reachable (state branched_world))
    by (right; simpl; lia).
  destruct (history_log_invariant plain_raster branched_world Hlog)
    as (Hsave & Hundo & _).
  split; [exact Hlog |]. split; [exact Hsave | exact Hundo].
Defined.

(** X2. After a commit there is nothing to redo: with the canvas mounted,
    once [saveToHistory] has run on a well-shaped log the redo button is
    disabled and [handleRedo] changes nothing, and the undo button is enabled
    exactly when the log held an entry before. *)
Theorem commit_leaves_nothing_to_redo (w : World) (c : nat) :
  canvasRef w = Some c ->
  log_reachable (state w) ->
  let w' := (run saveToHistory w).2 in
  redo_disabled (state w') = true /\
  run handleRedo w' = (Done None, w') /\
  (undo_disabled (state w') = false <-> history (state w) <> []).
Proof.
  intros Hcanvas Hlog w'.
  destruct (saveToHistory_effect (state w) w c Hcanvas) as (_ & Hhist & Hcur & _).
  fold (run saveToHistory w) in Hhist, Hcur. fold w' in Hhist, Hcur.
  destruct (commit_reachable (history (state w)) (history (state w'))
              (historyIndex (state w)) (historyIndex (state w'))
              (historyIndex (state w)) (Z.of_nat (length (history (state w))))
              (bitmap (document w c)) eq_refl eq_refl Hlog Hhist Hcur)
    as [_ Htip].
  assert (Hdisabled : redo_disabled (state w') = true).
  { unfold redo_disabled. apply Z.leb_le. lia. }
  split; [exact Hdisabled |].
  split.
  - unfold run, handleRedo.
    destruct (Z.ltb_spec (historyIndex (state w'))
                (Z.of_nat (length (history (state w'))) - 1)); [lia | reflexivity].
  - unfold undo_disabled. rewrite Hcur. rewrite Z.leb_gt.
    destruct Hlog as [[Hempty Hneg] | Hrange].
    + rewrite Hempty, Hneg. split; [lia | congruence].
    + split; [| lia]. intros _ Hempty. rewrite Hempty in Hrange. simpl in Hrange. lia.
Qed.

Lemma commit_leaves_nothing_to_redo_witness :
  canvasRef branched_world = Some 0%nat /\
  log_reachable (state branched_world) /\
  redo_disabled (state branched_world) = false /\
  redo_disabled (state (run saveToHistory branched_world).2) = true.
Proof.
  assert (Hcanvas : canvasRef branched_world = Some 0%nat) by reflexivity.
  assert (Hlog : log_reachable (state branched_world)) by (right; simpl; lia).
  destruct (commit_leaves_nothing_to_redo branched_world 0 Hcanvas Hlog)
    as (Hdisabled & _).
  split; [exact Hcanvas |]. split; [exact Hlog |].
  split; [reflexivity | exact Hdisabled].
Defined.

(** X3. The undo and redo buttons are disabled exactly when a click would do
    nothing: a disabled button's handler returns without an image load and
    leaves the world as it is; an enabled one moves the cursor by one and
    starts the load of [history[newIndex]]. *)
Theorem buttons_match_handlers (w : World) :
  let s := state w in
  (undo_disabled s = true -> run handleUndo w = (Done None, w)) /\
  (undo_disabled s = false ->
     run handleUndo w =
     (Done (Some (at_index (history s) (historyIndex s - 1))),
      move_cursor (historyIndex s - 1) w)) /\
  (redo_disabled s = true -> run handleRedo w = (Done None, w)) /\
  (redo_disabled s = false ->
     run handleRedo w =
     (Done (Some (at_index (history s) (historyIndex s + 1))),
      move_cursor (historyIndex s + 1) w)).
Proof.
  intros s. unfold undo_disabled, redo_disabled, run, handleUndo, handleRedo.
  fold s. repeat split; intros Hbutton.
  - apply Z.leb_le in Hbutton.
    destruct (Z.ltb_spec 0 (historyIndex s)); [lia | reflexivity].
  - apply Z.leb_gt in Hbutton.
    destruct (Z.ltb_spec 0 (historyIndex s)); [reflexivity | lia].
  - apply Z.leb_le in Hbutton.
    destruct (Z.ltb_spec (historyIndex s) (Z.of_nat (length (history s)) - 1));
      [lia | reflexivity].
  - apply Z.leb_gt in Hbutton.
    destruct (Z.ltb_spec (historyIndex s) (Z.of_nat (length (history s)) - 1));
      [reflexivity | lia].
Qed.

Lemma buttons_match_handlers_witness :
  undo_disabled (state editor_world) = true /\
  run handleUndo editor_world = (Done None, editor_world) /\
  redo_disabled (state branched_world) = false /\
  historyIndex (state (run handleRedo branched_world).2) = 2.
Proof.
  destruct (buttons_match_handlers editor_world) as (Hundo & _).
  destruct (buttons_match_handlers branched_world) as (_ & _ & _ & Hredo).
  split; [reflexivity |].
  split; [apply Hundo; reflexivity |].
  split; [reflexivity |].
  rewrite Hredo by reflexivity. reflexivity.
Defined.

(** ** Gestures *)

Lemma begin_gesture_opens (r : State) (point : Point) (w : World) :
  isDrawing (state (begin_gesture r point w).2) = true /\
  canvasRef (begin_gesture r point w).2 = canvasRef w.
Proof.
  unfold begin_gesture, bind, setIsDrawing, setStartPoint, modify, canvasRef_current.
  cbn [fst snd with_state canvasRef].
  destruct (is_freehand (drawingMode r)), (canvasRef w) as [c0 |] eqn:Href;
    try (cbn; split; [reflexivity | exact Href]).
  unfold getImageData, read. cbn [document with_state].
  destruct ((width (bitmap (document w c0)) =? 0)
            || (height (bitmap (document w c0)) =? 0));
    cbn; split; [reflexivity | exact Href | reflexivity | exact Href].
Qed.

Lemma extend_gesture_canvasRef (covers : Rasteriser) (r : State) (p : Point) (w : World) :
  canvasRef (extend_gesture covers r p w).2 = canvasRef w.
Proof.
  unfold extend_gesture, bind, canvasRef_current.
  destruct (canvasRef w) as [c |] eqn:Hcanvas; [| exact Hcanvas].
  destruct (is_freehand (drawingMode r)); [exact Hcanvas |].
  destruct (startPoint r), (shapePreviewImage r); try exact Hcanvas.
  destruct (drawingMode r); exact Hcanvas.
Qed.

Lemma mouse_moves_keep_state (covers : Rasteriser) (moves : list (Z * Z)) (w : World) :
  let w' := fold_left (handle covers)
              (map (fun m => onMouseMove (MouseEvent m.1 m.2)) moves) w in
  state w' = state w /\ canvasRef w' = canvasRef w.
Proof.
  revert w. induction moves as [| m moves IH]; intros w; [split; reflexivity |].
  cbn [map fold_left]. destruct (IH (handle covers w (onMouseMove (MouseEvent m.1 m.2))))
    as [Hs Hc].
  cbn zeta. rewrite Hs, Hc. unfold handle, run. cbn [dispatch].
  destruct (dispatch_moves_keep_state covers (state w) w) as [Hdraw _].
  split; [apply Hdraw |].
  unfold draw. destruct (isDrawing (state w)); [| reflexivity].
  cbn [negb]. unfold bind at 1.
  pose proof (getCoordinates_pure (MouseEvent m.1 m.2) w) as Hpure.
  destruct (getCoordinates (MouseEvent m.1 m.2) w) as [[p | exn] w0];
    simpl in Hpure; subst w0; [apply extend_gesture_canvasRef | reflexivity].
Qed.

(** X4. One gesture, one entry. With the canvas mounted and a well-formed
    log, a mouse gesture (button down, any number of moves, button up) ends
    with [isDrawing] false, the cursor one further, and the log cut after the
    old cursor and extended by exactly one entry: the picture on the canvas
    at the end of the gesture.  A further button-up, leave or touch-end then
    changes nothing. *)
Theorem mouse_gesture_commits_once (covers : Rasteriser) (w : World) (c : nat)
    (down : Z * Z) (moves : list (Z * Z)) :
  canvasRef w = Some c ->
  log_ok (state w) ->
  let w' := fold_left (handle covers) (mouse_gesture down moves) w in
  isDrawing (state w') = false /\
  history (state w') =
    take (Z.to_nat (historyIndex (state w) + 1)) (history (state w))
    ++ [bitmap (document w' c)] /\
  historyIndex (state w') = historyIndex (state w) + 1 /\
  handle covers w' onMouseUp = w' /\
  handle covers w' onMouseLeave = w' /\
  handle covers w' onTouchEnd = w'.
Proof.
  intros Hcanvas Hlog w'. unfold log_ok in Hlog.
  pose (opened := handle covers w (onMouseDown (MouseEvent down.1 down.2))).
  pose (moved := fold_left (handle covers)
                   (map (fun m => onMouseMove (MouseEvent m.1 m.2)) moves) opened).
  assert (Hsplit : w' = handle covers moved onMouseUp).
  { subst w' moved opened. unfold mouse_gesture. cbn [fold_left].
    rewrite fold_left_app. reflexivity. }
  clearbody w'.
  assert (Hopened : isDrawing (state opened) = true /\ canvasRef opened = Some c /\
                    history (state opened) = history (state w) /\
                    historyIndex (state opened) = historyIndex (state w)).
  { subst opened. unfold handle, run. cbn [dispatch].
    destruct (pointer_down_keeps_log (state w) w) as [Hdown _].
    destruct (Hdown (MouseEvent down.1 down.2)) as [Hh Hi].
    unfold startDrawing, bind in *.
    pose proof (getCoordinates_pure (MouseEvent down.1 down.2) w) as Hpure.
    destruct (getCoordinates (MouseEvent down.1 down.2) w) as [[p | exn] w0] eqn:Hget;
      simpl in Hpure; subst w0.
    - destruct (begin_gesture_opens (state w) p w) as [Hopen Href].
      repeat split; try assumption. congruence.
    - unfold getCoordinates, bind, canvasRef_current in Hget.
      cbn in Hget. destruct (canvasRef w); discriminate. }
  destruct Hopened as (Hopen & Href & Hh & Hi).
  destruct (mouse_moves_keep_state covers moves opened) as [Hstate Href'].
  fold moved in Hstate, Href'.
  assert (Hup : w' = (stopDrawing (state moved) moved).2) by exact Hsplit.
  unfold stopDrawing in Hup. rewrite Hstate, Hopen in Hup.
  unfold bind at 1 in Hup. cbn [setIsDrawing modify] in Hup.
  unfold bind at 1 in Hup. cbn [setShapePreviewImage modify] in Hup.
  match type of Hup with
  | _ = (saveToHistory _ ?w2).2 =>
      destruct (saveToHistory_effect (state opened) w2 c) as
        (_ & Hhist & Hcur & Hdrawing & _ & _ & Hdoc & _)
  end.
  { cbn. congruence. }
  rewrite <- Hup in Hhist, Hcur, Hdrawing, Hdoc.
  cbn in Hhist, Hcur, Hdrawing, Hdoc. rewrite Hstate in Hhist, Hcur.
  assert (Hidle : isDrawing (state w') = false) by exact Hdrawing.
  split; [exact Hidle |].
  split.
  { rewrite Hhist, Hdoc, Hh, Hi. f_equal.
    destruct (Z.ltb_spec (historyIndex (state w))
                (Z.of_nat (length (history (state w))) - 1)).
    - apply slice_prefix. lia.
    - rewrite take_ge by lia. reflexivity. }
  split; [rewrite Hcur, Hi; reflexivity |].
  unfold handle, run. cbn [dispatch]. unfold stopDrawing, handleTouchEnd.
  rewrite Hidle. repeat split.
Qed.

Lemma mouse_gesture_commits_once_witness :
  let w' := fold_left (handle plain_raster)
              (mouse_gesture (10, 10) [(20, 20); (30, 10); (40, 40)]) editor_world in
  canvasRef editor_world = Some 0%nat /\
  log_ok (state editor_world) /\
  length (history (state editor_world)) = 1%nat /\
  length (history (state w')) = 2%nat /\
  historyIndex (state w') = 1.
Proof.
  intros w'.
  assert (Hcanvas : canvasRef editor_world = Some 0%nat) by reflexivity.
  assert (Hlog : log_ok (state editor_world)) by (unfold log_ok; simpl; lia).
  destruct (mouse_gesture_commits_once plain_raster editor_world 0 (10, 10)
              [(20, 20); (30, 10); (40, 40)] Hcanvas Hlog)
    as (_ & Hhist & Hcur & _).
  fold w' in Hhist, Hcur.
  split; [exact Hcanvas |]. split; [exact Hlog |]. split; [reflexivity |].
  split; [rewrite Hhist; reflexivity | rewrite Hcur; reflexivity].
Defined.

(** ** Applying an entry *)

Lemma deliver_pixels (w : World) (c : nat) (entry : Bitmap) :
  canvasRef w = Some c ->
  let w' := (deliver (Some (Some entry)) w).2 in
  width (bitmap (document w' c)) = width (bitmap (document w c)) /\
  height (bitmap (document w' c)) = height (bitmap (document w c)) /\
  (loads entry = true ->
   forall u v, pixelAt (bitmap (document w' c)) u v =
               if inside (bitmap (document w c)) u v then pixelAt entry u v else Clear) /\
  (loads entry = false -> w' = w).
Proof.
  intros Hcanvas w'.
  destruct (deliver_frame c w (Some (Some entry)) Hcanvas) as (_ & _ & _ & Hw & Hh).
  split; [exact Hw |]. split; [exact Hh |]. subst w'. cbn [deliver].
  split; intros Hloads; rewrite Hloads; [| reflexivity].
  destruct (onload_frame c w entry Hcanvas Hloads) as (_ & _ & Hpix). exact Hpix.
Qed.

(** X5. What an undo or a redo puts on the canvas. With the canvas mounted
    and the cursor able to move, the entry at the new cursor is drawn at the
    top-left corner of the cleared canvas, whose size stays what it is:
    inside the entry the canvas shows the entry, and every canvas pixel
    beyond it is transparent (as after the window has grown since the
    checkpoint).  An entry without pixels never loads, and the canvas keeps
    what it showed. *)
Theorem undo_redo_show_entry (w : World) (c : nat) (entry : Bitmap) :
  canvasRef w = Some c ->
  let s := state w in
  let shows (w' : World) :=
    width (bitmap (document w' c)) = width (bitmap (document w c)) /\
    height (bitmap (document w' c)) = height (bitmap (document w c)) /\
    (loads entry = true ->
     forall u v, pixelAt (bitmap (document w' c)) u v =
                 if inside (bitmap (document w c)) u v then pixelAt entry u v else Clear) /\
    (loads entry = false -> document w' = document w) in
  (0 < historyIndex s ->
   at_index (history s) (historyIndex s - 1) = Some entry ->
   shows (undo_step w)) /\
  (historyIndex s < Z.of_nat (length (history s)) - 1 ->
   at_index (history s) (historyIndex s + 1) = Some entry ->
   shows (redo_step w)).
Proof.
  intros Hcanvas s shows. split.
  - intros Hpos Hentry. unfold undo_step, run, handleUndo. fold s.
    destruct (Z.ltb_spec 0 (historyIndex s)); [| lia].
    unfold bind, ret. cbn [setHistoryIndex modify]. rewrite Hentry.
    match goal with
    | |- shows (deliver _ ?w1).2 =>
        destruct (deliver_pixels w1 c entry Hcanvas) as (Hw & Hh & Hyes & Hno)
    end.
    unfold shows. split; [exact Hw |]. split; [exact Hh |].
    split; [exact Hyes |]. intros Hloads. rewrite (Hno Hloads). reflexivity.
  - intros Hbelow Hentry. unfold redo_step, run, handleRedo. fold s.
    destruct (Z.ltb_spec (historyIndex s) (Z.of_nat (length (history s)) - 1)); [| lia].
    unfold bind, ret. cbn [setHistoryIndex modify]. rewrite Hentry.
    match goal with
    | |- shows (deliver _ ?w1).2 =>
        destruct (deliver_pixels w1 c entry Hcanvas) as (Hw & Hh & Hyes & Hno)
    end.
    unfold shows. split; [exact Hw |]. split; [exact Hh |].
    split; [exact Hyes |]. intros Hloads. rewrite (Hno Hloads). reflexivity.
Qed.

Lemma undo_redo_show_entry_witness :
  canvasRef grown_world = Some 0%nat /\
  0 < historyIndex (state grown_world) /\
  at_index (history (state grown_world)) (historyIndex (state grown_world) - 1)
  = Some (entry_at grown_world 0) /\
  (width (entry_at grown_world 0), width (bitmap (document grown_world 0))) = (100, 200) /\
  pixelAt (bitmap (document (undo_step grown_world) 0)) 150 10 = Clear /\
  pixelAt (bitmap (document (undo_step grown_world) 0)) 50 10 = white.
Proof.
  assert (Hcanvas : canvasRef grown_world = Some 0%nat) by reflexivity.
  assert (Hpos : 0 < historyIndex (state grown_world)) by (vm_compute; reflexivity).
  assert (Hentry : at_index (history (state grown_world))
                     (historyIndex (state grown_world) - 1)
                   = Some (entry_at grown_world 0)) by reflexivity.
  destruct (undo_redo_show_entry grown_world 0 (entry_at grown_world 0) Hcanvas)
    as [Hundo _].
  destruct (Hundo Hpos Hentry) as (_ & _ & Hshown & _).
  split; [exact Hcanvas |]. split; [exact Hpos |]. split; [exact Hentry |].
  split; [vm_compute; reflexivity |].
  split; rewrite Hshown by (vm_compute; reflexivity); vm_compute; reflexivity.
Defined.

Lemma undo_step_shows (w : World) (c : nat) (img : Bitmap) :
  canvasRef w = Some c ->
  0 < historyIndex (state w) ->
  at_index (history (state w)) (historyIndex (state w) - 1) = Some img ->
  width img = width (bitmap (document w c)) ->
  height img = height (bitmap (document w c)) ->
  same_pixels (bitmap (document (undo_step w) c)) img.
Proof.
  intros Hcanvas Hpos Hentry Hw Hh.
  unfold undo_step, run, handleUndo.
  destruct (Z.ltb_spec 0 (historyIndex (state w))); [| lia].
  unfold bind, ret. cbn [setHistoryIndex modify]. rewrite Hentry.
  apply deliver_shows; assumption.
Qed.

Lemma at_index_kept_prefix {A} (l : list A) (i : Z) (a : A) :
  0 <= i < Z.of_nat (length l) ->
  at_index (take (Z.to_nat (i + 1)) l ++ [a]) i = at_index l i.
Proof.
  intros Hi. unfold at_index.
  destruct (Z.ltb_spec i 0); [lia |].
  rewrite lookup_app_l by (rewrite length_take; lia).
  apply lookup_take_lt. lia.
Qed.

(** X6. Clearing the canvas can be undone. With the canvas mounted and a
    well-formed log, [handleClearCanvas] throws nothing, leaves the whole
    canvas opaque white, and commits that white picture as one entry after
    the old cursor; when the canvas showed the entry under the cursor, the
    next undo brings that picture back. *)
Theorem clear_canvas_is_undoable (w : World) (c : nat) :
  canvasRef w = Some c ->
  log_ok (state w) ->
  let s := state w in
  let cleared := (run handleClearCanvas w).2 in
  (run handleClearCanvas w).1 = Done tt /\
  same_pixels (bitmap (document cleared c))
    (all_white (width (bitmap (document w c))) (height (bitmap (document w c)))) /\
  history (state cleared) =
    take (Z.to_nat (historyIndex s + 1)) (history s) ++ [bitmap (document cleared c)] /\
  historyIndex (state cleared) = historyIndex s + 1 /\
  (forall shown,
     at_index (history s) (historyIndex s) = Some shown ->
     same_pixels (bitmap (document w c)) shown ->
     same_pixels (bitmap (document (undo_step cleared) c)) (bitmap (document w c))).
Proof.
  intros Hcanvas Hlog s cleared. unfold log_ok in Hlog. fold s in Hlog.
  pose (filled := update_canvas c
          (fun cv => with_bitmap (fun b =>
             fill_rect (fillStyle (context cv)) b 0 0
               (width (bitmap (document w c))) (height (bitmap (document w c)))) cv)
          (update_canvas c (with_context (set_fillStyle white)) w)).
  assert (Hrun : run handleClearCanvas w = saveToHistory s filled).
  { unfold run, handleClearCanvas, bind at 1, canvasRef_current.
    rewrite Hcanvas. reflexivity. }
  assert (Hfilled : canvasRef filled = Some c) by exact Hcanvas.
  destruct (saveToHistory_effect s filled c Hfilled)
    as (Hdone & Hhist & Hcur & _ & _ & _ & Hdoc & Href).
  rewrite <- Hrun in Hdone, Hhist, Hcur, Hdoc, Href. fold cleared in Hhist, Hcur, Hdoc, Href.
  assert (Hbitmap : bitmap (document cleared c) = bitmap (document filled c))
    by (rewrite Hdoc; reflexivity).
  assert (Hwhite : same_pixels (bitmap (document cleared c))
            (all_white (width (bitmap (document w c))) (height (bitmap (document w c))))).
  { rewrite Hbitmap. subst filled. rewrite !document_update_same.
    split; [reflexivity |]. split; [reflexivity |].
    intros u v. unfold pixelAt, inside. cbn -[source_over in_rect].
    unfold in_rect. rewrite !Z.add_0_l.
    destruct ((0 <=? u) && (u <? width (bitmap (document w c))) &&
              (0 <=? v) && (v <? height (bitmap (document w c))));
      [apply white_over | reflexivity]. }
  assert (Hhistory : history (state cleared) =
            take (Z.to_nat (historyIndex s + 1)) (history s)
            ++ [bitmap (document cleared c)]).
  { rewrite Hhist, Hbitmap. change (history (state filled)) with (history s). f_equal.
    destruct (Z.ltb_spec (historyIndex s) (Z.of_nat (length (history s)) - 1)).
    - apply slice_prefix. lia.
    - rewrite take_ge by lia. reflexivity. }
  split; [exact Hdone |]. split; [exact Hwhite |]. split; [exact Hhistory |].
  split; [exact Hcur |].
  intros shown Hshown [Hw [Hh Hpix]].
  assert (Hin : 0 <= historyIndex s < Z.of_nat (length (history s))).
  { unfold at_index in Hshown. destruct (Z.ltb_spec (historyIndex s) 0); [discriminate |].
    apply lookup_lt_Some in Hshown. lia. }
  assert (Hback : same_pixels (bitmap (document (undo_step cleared) c)) shown).
  { apply undo_step_shows.
    - rewrite Href. exact Hcanvas.
    - rewrite Hcur. change (historyIndex (state filled)) with (historyIndex s). lia.
    - rewrite Hcur, Hhistory. change (historyIndex (state filled)) with (historyIndex s).
      replace (historyIndex s + 1 - 1) with (historyIndex s) by lia.
      rewrite at_index_kept_prefix by lia. exact Hshown.
    - destruct Hwhite as [Hww _]. rewrite Hww. cbn [width all_white]. congruence.
    - destruct Hwhite as (_ & Hhh & _). rewrite Hhh. cbn [height all_white]. congruence. }
  destruct Hback as (Hbw & Hbh & Hbpix).
  split; [congruence |]. split; [congruence |].
  intros u v. rewrite Hbpix, Hpix. reflexivity.
Qed.

Lemma clear_canvas_is_undoable_witness :
  let w := checkpoint editor_world (all_black 100 100) in
  let cleared := (run handleClearCanvas w).2 in
  canvasRef w = Some 0%nat /\
  log_ok (state w) /\
  pixelAt (bitmap (document w 0)) 5 5 = black /\
  pixelAt (bitmap (document cleared 0)) 5 5 = white /\
  length (history (state cleared)) = 3%nat /\
  pixelAt (bitmap (document (undo_step cleared) 0)) 5 5 = black.
Proof.
  intros w cleared.
  assert (Hcanvas : canvasRef w = Some 0%nat) by reflexivity.
  assert (Hlog : log_ok (state w)) by (unfold log_ok; simpl; lia).
  destruct (clear_canvas_is_undoable w 0 Hcanvas Hlog) as (_ & _ & Hhist & _ & Hundo).
  fold cleared in Hhist, Hundo.
  split; [exact Hcanvas |]. split; [exact Hlog |].
  split; [vm_compute; reflexivity |].
  split; [vm_compute; reflexivity |].
  split; [rewrite Hhist; reflexivity |].
  destruct (Hundo (bitmap (document w 0)) eq_refl (same_pixels_refl _))
    as (_ & _ & Hpix).
  rewrite Hpix. vm_compute. reflexivity.
Defined.

(** ** The layer stack *)

Lemma filter_index_beyond {A} (l : list A) (k index : Z) :
  k + Z.of_nat (length l) <= index ->
  filter_index (fun i => negb (i =? index)) k l = l.
Proof.
  revert k. induction l as [| a l IH]; intros k Hge; [reflexivity |].
  simpl in Hge. simpl. destruct (Z.eqb_spec k index); [lia |].
  simpl. rewrite IH by lia. reflexivity.
Qed.

Lemma filter_index_length {A} (l : list A) (index : Z) :
  Z.of_nat (length (filter_index (fun i => negb (i =? index)) 0 l)) =
  if (0 <=? index) && (index <? Z.of_nat (length l))
  then Z.of_nat (length l) - 1 else Z.of_nat (length l).
Proof.
  destruct (Z.leb_spec 0 index), (Z.ltb_spec index (Z.of_nat (length l))); cbn [andb].
  - rewrite filter_index_delete by lia. rewrite length_delete; [lia |].
    apply lookup_lt_is_Some_2. lia.
  - rewrite filter_index_beyond by lia. reflexivity.
  - rewrite filter_index_keeps_all by lia. reflexivity.
  - rewrite filter_index_keeps_all by lia. reflexivity.
Qed.

Lemma map_index_length {A B} (f : A -> Z -> B) (k : Z) (l : list A) :
  length (map_index f k l) = length l.
Proof.
  revert k. induction l as [| a l IH]; intros k; [reflexivity |].
  simpl. rewrite IH. reflexivity.
Qed.

Lemma addLayer_state (w : World) :
  layers (state (run addLayer w).2) =
    layers (state w) ++
    [mkLayer ("layer-" +:+ layer_number (state w)) ("Layer " +:+ layer_number (state w))
       true (Some (allocated w))] /\
  activeLayerIndex (state (run addLayer w).2) = Z.of_nat (length (layers (state w))) /\
  history (state (run addLayer w).2) = history (state w) /\
  historyIndex (state (run addLayer w).2) = historyIndex (state w).
Proof.
  unfold run, addLayer, bind, createElement_canvas, canvasRef_current.
  cbn [canvasRef]. destruct (canvasRef w); repeat split.
Qed.

Lemma deleteLayer_state (w : World) (index : Z) :
  1 < Z.of_nat (length (layers (state w))) ->
  layers (state (run (fun r => deleteLayer r index) w).2) =
    filter_index (fun i => negb (i =? index)) 0 (layers (state w)) /\
  activeLayerIndex (state (run (fun r => deleteLayer r index) w).2) =
    (if index <=? activeLayerIndex (state w)
     then Z.max 0 (activeLayerIndex (state w) - 1) else activeLayerIndex (state w)).
Proof.
  intros Hmany. unfold run, deleteLayer.
  destruct (Z.ltb_spec 1 (Z.of_nat (length (layers (state w))))); [| lia].
  destruct (index <=? activeLayerIndex (state w));
    unfold bind, setLayers, setActiveLayerIndex, modify, skip, ret;
    cbn -[redrawCanvas filter_index Z.max];
    rewrite !redrawCanvas_state; split; reflexivity.
Qed.

(** X7. The active index always points into the stack, and the stack is
    never emptied: if [0 <= activeLayerIndex < layers.length] holds, it holds
    again after [addLayer], after [deleteLayer] with any index whatever
    (also one that names no layer), and after [toggleLayerVisibility] from
    any closure. *)
Theorem layer_stack_invariant (w : World) :
  stack_ok (state w) ->
  stack_ok (state (run addLayer w).2) /\
  (forall index, stack_ok (state (run (fun r => deleteLayer r index) w).2)) /\
  (forall r index, stack_ok (state (toggleLayerVisibility r index w).2)).
Proof.
  intros Hok. unfold stack_ok in *. split; [| split].
  - destruct (addLayer_state w) as (Hl & Ha & _). rewrite Hl, Ha, length_app.
    cbn [length]. lia.
  - intros index.
    destruct (Z.ltb_spec 1 (Z.of_nat (length (layers (state w))))) as [Hmany | Hone].
    + destruct (deleteLayer_state w index Hmany) as [Hl Ha]. rewrite Hl, Ha.
      rewrite filter_index_length.
      destruct (Z.leb_spec 0 index), (Z.ltb_spec index (Z.of_nat (length (layers (state w))))),
               (Z.leb_spec index (activeLayerIndex (state w))); cbn [andb]; lia.
    + unfold run, deleteLayer.
      destruct (Z.ltb_spec 1 (Z.of_nat (length (layers (state w))))); [lia | exact Hok].
  - intros r index. unfold toggleLayerVisibility, bind. cbn [setLayers modify].
    rewrite redrawCanvas_state. cbn. rewrite map_index_length. exact Hok.
Qed.

Lemma layer_stack_invariant_witness :
  stack_ok (state two_layer_world) /\
  stack_ok (state (run (fun r => deleteLayer r 7) two_layer_world).2) /\
  stack_ok (state (run (fun r => deleteLayer r 1) two_layer_world).2).
Proof.
  assert (Hok : stack_ok (state two_layer_world)) by (unfold stack_ok; simpl; lia).
  destruct (layer_stack_invariant two_layer_world Hok) as (_ & Hdelete & _).
  split; [exact Hok |]. split; apply Hdelete.
Defined.

(** X8. What [addLayer] adds. With the canvas mounted (an element created
    before), the new layer is appended on top, visible and active; its canvas
    is a new element of the size of the on-screen canvas, without any paint;
    no element that existed is changed, so nothing is drawn on the screen,
    and the log is left alone. *)
Theorem addLayer_appends_transparent_layer (w : World) (c : nat) :
  canvasRef w = Some c ->
  (c < allocated w)%nat ->
  let w' := (run addLayer w).2 in
  let created := allocated w in
  (run addLayer w).1 = Done tt /\
  (exists added,
     layers (state w') = layers (state w) ++ [added] /\
     visible added = true /\ canvas added = Some created) /\
  activeLayerIndex (state w') = Z.of_nat (length (layers (state w'))) - 1 /\
  width (bitmap (document w' created)) = width (bitmap (document w c)) /\
  height (bitmap (document w' created)) = height (bitmap (document w c)) /\
  transparent (bitmap (document w' created)) /\
  (forall q, (q < allocated w)%nat -> document w' q = document w q) /\
  history (state w') = history (state w) /\
  historyIndex (state w') = historyIndex (state w).
Proof.
  intros Hcanvas Hlt w' created.
  destruct (addLayer_state w) as (Hl & Ha & Hh & Hi). fold w' in Hl, Ha, Hh, Hi.
  assert (Hne : Nat.eqb c created = false) by (apply Nat.eqb_neq; subst created; lia).
  assert (Hrun : (run addLayer w).1 = Done tt /\
                 document w' created =
                   with_bitmap (fun b => fill_rect Clear b 0 0
                                  (width (bitmap (document w c)))
                                  (height (bitmap (document w c))))
                     (with_context (set_fillStyle Clear)
                        (assign_height (height (bitmap (document w c)))
                           (assign_width (width (bitmap (document w c))) new_canvas))) /\
                 forall q, (q < allocated w)%nat -> document w' q = document w q).
  { subst w'. unfold run, addLayer, bind, createElement_canvas, canvasRef_current.
    cbn [canvasRef]. rewrite Hcanvas.
    unfold read, on_canvas, assign_fillStyle, fillRect, on_canvas, setLayers,
      setActiveLayerIndex, modify.
    cbn. fold created. rewrite !Nat.eqb_refl, Hne. cbn.
    split; [reflexivity |]. split; [reflexivity |].
    intros q Hq. destruct (Nat.eqb_spec q created); [subst created; lia | reflexivity]. }
  destruct Hrun as (Hdone & Hnew & Hold).
  split; [exact Hdone |].
  split; [eexists; split; [exact Hl |]; split; reflexivity |].
  split; [rewrite Ha, Hl, length_app; cbn [length]; lia |].
  rewrite Hnew.
  split; [reflexivity |]. split; [reflexivity |].
  split; [| split; [exact Hold | split; assumption]].
  intros u v. unfold pixelAt. cbn.
  destruct (inside _ u v); [| reflexivity].
  destruct (in_rect _ _ _ _ u v); reflexivity.
Qed.

Lemma addLayer_appends_transparent_layer_witness :
  canvasRef editor_world = Some 0%nat /\
  (0 < allocated editor_world)%nat /\
  length (layers (state two_layer_world)) = 2%nat /\
  activeLayerIndex (state two_layer_world) = 1 /\
  width (bitmap (document two_layer_world 1)) = 100.
Proof.
  assert (Hcanvas : canvasRef editor_world = Some 0%nat) by reflexivity.
  assert (Hlt : (0 < allocated editor_world)%nat) by (vm_compute; lia).
  destruct (addLayer_appends_transparent_layer editor_world 0 Hcanvas Hlt)
    as (_ & _ & Hactive & Hwidth & _).
  split; [exact Hcanvas |]. split; [exact Hlt |].
  split; [reflexivity |].
  split; [exact Hactive |].
  unfold two_layer_world.
  change (allocated editor_world) with 1%nat in Hwidth.
  rewrite Hwidth. vm_compute. reflexivity.
Defined.

Lemma numbered_ids_next (n : nat) :
  numbered_ids (S n) = numbered_ids n ++ ["layer-" +:+ pretty (Z.of_nat n + 1)].
Proof.
  unfold numbered_ids. rewrite seq_S, map_app. reflexivity.
Qed.

Lemma numbered_ids_distinct (n : nat) : NoDup (numbered_ids n).
Proof.
  unfold numbered_ids.
  change (NoDup ((fun k => "layer-" +:+ pretty (Z.of_nat k + 1)) <$> seq 0 n)).
  apply NoDup_fmap_2; [| apply NoDup_seq].
  intros j k Hjk. apply (inj (String.app "layer-")) in Hjk.
  apply (inj pretty) in Hjk. lia.
Qed.

(** X9. While layers are only added, the ids stay distinct: on a stack whose
    ids are "layer-1" ... "layer-n", any number [k] of [addLayer] calls gives
    the ids "layer-1" ... "layer-(n+k)", without a repetition. *)
Theorem addLayer_only_keeps_ids_distinct (w : World) (n k : nat) :
  layer_ids w = numbered_ids n ->
  let grown := Nat.iter k (fun w0 => (run addLayer w0).2) w in
  layer_ids grown = numbered_ids (n + k) /\
  NoDup (layer_ids grown).
Proof.
  intros Hids grown.
  assert (Hgrown : layer_ids grown = numbered_ids (n + k)).
  { subst grown. induction k as [| k IH].
    - rewrite Nat.add_0_r. exact Hids.
    - rewrite Nat.iter_succ. set (before := Nat.iter k _ w) in *.
      destruct (addLayer_state before) as (Hl & _).
      unfold layer_ids in *. rewrite Hl, map_app, IH.
      replace (n + S k)%nat with (S (n + k)) by lia.
      rewrite numbered_ids_next. f_equal. cbn [map id]. f_equal. f_equal.
      unfold layer_number.
      assert (Hlen : length (layers (state before)) = (n + k)%nat).
      { rewrite <- (length_map id), IH. unfold numbered_ids.
        rewrite length_map, length_seq. reflexivity. }
      rewrite Hlen. reflexivity. }
  split; [exact Hgrown |]. rewrite Hgrown. apply numbered_ids_distinct.
Qed.

Lemma addLayer_only_keeps_ids_distinct_witness :
  layer_ids editor_world = numbered_ids 1 /\
  layer_ids (Nat.iter 2 (fun w0 => (run addLayer w0).2) editor_world)
  = ["layer-1"; "layer-2"; "layer-3"].
Proof.
  assert (Hids : layer_ids editor_world = numbered_ids 1) by (vm_compute; reflexivity).
  destruct (addLayer_only_keeps_ids_distinct editor_world 1 2 Hids) as [Hgrown _].
  split; [exact Hids |]. rewrite Hgrown. vm_compute. reflexivity.
Defined.

(** ** Redrawing from the layers *)

Lemma forEach_invariant {A} (P : World -> Prop) (f : A -> Handler unit) (l : list A) :
  (forall a w, In a l -> P w -> P (f a w).2) ->
  forall w, P w -> P (forEach l f w).2.
Proof.
  induction l as [| a l IH]; intros Hstep w Hw; [exact Hw |].
  cbn [forEach]. unfold bind.
  pose proof (Hstep a w (or_introl eq_refl) Hw) as Hnext.
  destruct (f a w) as [[[] | e] w1]; cbn [snd] in *; [| exact Hnext].
  apply IH; [| exact Hnext]. intros a' w' Hin. apply Hstep. right. exact Hin.
Qed.

Section WhiteOutput.

Variable w : World.
Variable c : nat.

(** The output is white, and no other canvas has changed since [w]. *)
Let white_output (w1 : World) : Prop :=
  same_pixels (bitmap (document w1 c))
    (all_white (width (bitmap (document w c))) (height (bitmap (document w c)))) /\
  forall lc, lc <> c -> document w1 lc = document w lc.

Lemma overlay_keeps_white (layer : Layer) (w1 : World) :
  adds_nothing c w layer -> white_output w1 -> white_output (overlay c layer w1).2.
Proof.
  intros Hlayer [Hwhite Hothers]. unfold adds_nothing in Hlayer. unfold overlay.
  destruct (canvas layer) as [lc |]; [| split; assumption].
  unfold bind, read, drawImage.
  destruct ((width (bitmap (document w1 lc)) =? 0)
            || (height (bitmap (document w1 lc)) =? 0)); [split; assumption |].
  cbn [on_canvas snd]. split.
  - rewrite document_update_same.
    destruct Hwhite as (Hw & Hh & Hpix).
    split; [exact Hw |]. split; [exact Hh |].
    intros u v. specialize (Hpix u v). unfold pixelAt in *.
    cbn [with_bitmap bitmap draw_image width height pixel inside] in *.
    change (inside (draw_image (bitmap (document w1 c)) (bitmap (document w1 lc)) 0 0) u v)
      with (inside (bitmap (document w1 c)) u v).
    destruct (inside (bitmap (document w1 c)) u v) eqn:Hin; [| exact Hpix].
    cbn [draw_image pixel]. rewrite !Z.sub_0_r.
    destruct (inside (bitmap (document w1 lc)) u v) eqn:Hsrc; [| exact Hpix].
    destruct Hlayer as [-> | Hclear].
    + rewrite Hpix.
      destruct (inside (all_white _ _) u v); [apply white_over | reflexivity].
    + destruct (Nat.eq_dec lc c) as [-> | Hne].
      * rewrite Hpix.
        destruct (inside (all_white _ _) u v); [apply white_over | reflexivity].
      * rewrite (Hothers lc Hne) in Hsrc |- *.
        specialize (Hclear u v). unfold pixelAt in Hclear. rewrite Hsrc in Hclear.
        rewrite Hclear. exact Hpix.
  - intros q Hq. rewrite document_update_other by exact Hq. apply Hothers. exact Hq.
Qed.

Lemma whitened_white_output : white_output (whitened c w).
Proof.
  split; [apply whitened_pixels |].
  intros lc Hlc. unfold whitened, clearRect, assign_fillStyle, fillRect, on_canvas, bind.
  cbn -[update_canvas]. rewrite !document_update_other by exact Hlc. reflexivity.
Qed.

Lemma redrawCanvas_white (r : State) :
  canvasRef w = Some c ->
  (forall layer, In layer (layers r) -> visible layer = true -> adds_nothing c w layer) ->
  same_pixels (bitmap (document (redrawCanvas r w).2 c))
    (all_white (width (bitmap (document w c))) (height (bitmap (document w c)))).
Proof.
  intros Hcanvas Hlayers. rewrite (redrawCanvas_unfold r w c Hcanvas).
  apply (forEach_invariant white_output (overlay c)
           (List.filter visible (layers r))).
  - intros layer w1 Hin Hw1. apply filter_In in Hin as [Hin Hvisible].
    apply overlay_keeps_white; [apply Hlayers; assumption | exact Hw1].
  - apply whitened_white_output.
Qed.

End WhiteOutput.

(** X10. The layers' own canvases never receive a stroke, so compositing
    gives a white sheet: with the canvas mounted, when every visible layer of
    the stack holds the on-screen canvas itself (as the first layer does), a
    canvas without paint (as [addLayer] makes them) or none, [redrawCanvas]
    leaves the whole canvas opaque white, whatever was drawn on it, and so
    does [deleteLayer] on a stack of more than one layer. *)
Theorem redraw_leaves_white_sheet (w : World) (c : nat) (r : State) :
  canvasRef w = Some c ->
  (forall layer, In layer (layers r) -> visible layer = true -> adds_nothing c w layer) ->
  let sheet := all_white (width (bitmap (document w c))) (height (bitmap (document w c))) in
  same_pixels (bitmap (document (redrawCanvas r w).2 c)) sheet /\
  (forall index,
     delete_offered r = true ->
     same_pixels (bitmap (document (deleteLayer r index w).2 c)) sheet).
Proof.
  intros Hcanvas Hlayers sheet.
  split; [apply redrawCanvas_white; assumption |].
  intros index Hoffered. unfold delete_offered in Hoffered.
  unfold deleteLayer. rewrite Hoffered.
  destruct (index <=? activeLayerIndex r);
    unfold bind, setLayers, setActiveLayerIndex, modify, skip, ret;
    cbn -[redrawCanvas filter_index Z.max];
    match goal with
    | |- same_pixels (bitmap (document (redrawCanvas r ?w1).2 c)) _ =>
        apply (redrawCanvas_white w1 c r Hcanvas Hlayers)
    end.
Qed.

Lemma redraw_leaves_white_sheet_witness :
  let w := paint (all_black 100 100) two_layer_world in
  canvasRef w = Some 0%nat /\
  delete_offered (state w) = true /\
  pixelAt (bitmap (document w 0)) 5 5 = black /\
  pixelAt (bitmap (document (run (fun r => deleteLayer r 1) w).2 0)) 5 5 = white.
Proof.
  intros w.
  assert (Hcanvas : canvasRef w = Some 0%nat) by reflexivity.
  assert (Hlayers : forall layer, In layer (layers (state w)) ->
                      visible layer = true -> adds_nothing 0 w layer).
  { intros layer [<- | [<- | []]] _.
    - left. reflexivity.
    - right. intros u v. vm_compute.
      repeat match goal with |- context [match ?t with _ => _ end] => destruct t end;
        reflexivity. }
  destruct (redraw_leaves_white_sheet w 0 (state w) Hcanvas Hlayers) as [_ Hdelete].
  split; [exact Hcanvas |]. split; [reflexivity |].
  split; [vm_compute; reflexivity |].
  destruct (Hdelete 1 eq_refl) as (_ & _ & Hpix).
  unfold run. rewrite Hpix. vm_compute. reflexivity.
Defined.

Lemma map_index_lookup {A B} (f : A -> Z -> B) (k : Z) (l : list A) (i : nat) (a : A) :
  l !! i = Some a -> map_index f k l !! i = Some (f a (k + Z.of_nat i)).
Proof.
  revert k i. induction l as [| a0 l IH]; intros k i Hl; [discriminate |].
  destruct i as [| i]; simpl in *.
  - injection Hl as ->. rewrite Z.add_0_r. reflexivity.
  - rewrite (IH (k + 1) i Hl). f_equal. f_equal. lia.
Qed.

(** X11. Toggling a layer's visibility wipes the drawing. The component
    memoises [toggleLayerVisibility] with an empty dependency list, so it
    redraws from the stack of the first render, whose single layer has no
    canvas yet: with the canvas mounted, a toggle flips the [visible] flag of
    the layer at [index] and of no other, throws nothing, and leaves the
    whole on-screen canvas opaque white; the log is not touched. *)
Theorem toggleLayerVisibility_flips_and_wipes (w : World) (c : nat) (index : Z) :
  canvasRef w = Some c ->
  let w' := (toggleLayerVisibility initial_state index w).2 in
  (toggleLayerVisibility initial_state index w).1 = Done tt /\
  same_pixels (bitmap (document w' c))
    (all_white (width (bitmap (document w c))) (height (bitmap (document w c)))) /\
  length (layers (state w')) = length (layers (state w)) /\
  (forall (i : nat) (layer : Layer),
     layers (state w) !! i = Some layer ->
     layers (state w') !! i
     = Some (if Z.of_nat i =? index then toggle layer else layer)) /\
  history (state w') = history (state w) /\
  historyIndex (state w') = historyIndex (state w).
Proof.
  intros Hcanvas w'.
  pose (flipped := (setLayers (fun prev =>
          map_index (fun layer i => if i =? index then toggle layer else layer) 0 prev)
          w).2).
  assert (Hrun : toggleLayerVisibility initial_state index w
                 = (Done tt, whitened c flipped)).
  { assert (Hflipped : canvasRef flipped = Some c) by exact Hcanvas.
    change (toggleLayerVisibility initial_state index w)
      with (redrawCanvas initial_state flipped).
    rewrite (redrawCanvas_unfold initial_state flipped c Hflipped). reflexivity. }
  subst w'. rewrite Hrun. cbn [fst snd].
  split; [reflexivity |].
  split; [apply (whitened_pixels c flipped) |].
  split; [cbn; apply map_index_length |].
  split; [| split; reflexivity].
  intros i layer Hlayer. cbn.
  rewrite (map_index_lookup _ 0 _ i layer Hlayer). rewrite Z.add_0_l. reflexivity.
Qed.

Lemma toggleLayerVisibility_flips_and_wipes_witness :
  canvasRef drawn_world = Some 0%nat /\
  pixelAt (bitmap (document drawn_world 0)) 9 9 = black /\
  pixelAt (bitmap (document (toggleLayerVisibility initial_state 0 drawn_world).2 0)) 9 9
  = white /\
  map visible (layers (state (toggleLayerVisibility initial_state 0 drawn_world).2))
  = [false].
Proof.
  assert (Hcanvas : canvasRef drawn_world = Some 0%nat) by reflexivity.
  destruct (toggleLayerVisibility_flips_and_wipes drawn_world 0 0 Hcanvas)
    as (_ & (_ & _ & Hpix) & _).
  split; [exact Hcanvas |].
  split; [vm_compute; reflexivity |].
  split; [rewrite Hpix; vm_compute; reflexivity | vm_compute; reflexivity].
Defined.

(** ** Strokes and previews *)

Section Gesture.

Variable covers : Rasteriser.
Variable w : World.
Variable c : nat.
Hypothesis Hcanvas : canvasRef w = Some c.

Let k0 := context (document w c).

(** The line width after [ctx.lineWidth = size]. *)
Let width_after (size : Z) : Z := if 0 <? size then size else lineWidth k0.


Lemma begin_gesture_shape (r : State) (p : Point) :
  is_freehand (drawingMode r) = false ->
  0 < width (bitmap (document w c)) ->
  0 < height (bitmap (document w c)) ->
  let w' := (begin_gesture r p w).2 in
  (begin_gesture r p w).1 = Done tt /\
  canvasRef w' = Some c /\
  document w' = document w /\
  isDrawing (state w') = true /\
  drawingMode (state w') = drawingMode (state w) /\
  color (state w') = color (state w) /\
  brushSize (state w') = brushSize (state w) /\
  startPoint (state w') = Some p /\
  shapePreviewImage (state w') =
    Some (get_image_data (bitmap (document w c)) 0 0
            (width (bitmap (document w c))) (height (bitmap (document w c)))).
Proof.
  intros Hmode Hw Hh. unfold begin_gesture, bind, setIsDrawing, setStartPoint, modify,
    canvasRef_current.
  cbn [fst snd with_state canvasRef]. rewrite Hmode, Hcanvas.
  unfold getImageData, read. cbn [document with_state].
  destruct (Z.eqb_spec (width (bitmap (document w c))) 0) as [Hz | _]; [lia |].
  destruct (Z.eqb_spec (height (bitmap (document w c))) 0) as [Hz | _]; [lia |].
  cbn. repeat split. exact Hcanvas.
Qed.

Lemma extend_gesture_shape (r : State) (anchor p : Point) (saved : ImageData) :
  is_freehand (drawingMode r) = false ->
  startPoint r = Some anchor ->
  shapePreviewImage r = Some saved ->
  let w' := (extend_gesture covers r p w).2 in
  let k := mkContext2D (fillStyle k0) (color r) (width_after (brushSize r))
             (lineCap k0) (lineJoin k0) (shape_path (drawingMode r) anchor p) in
  (extend_gesture covers r p w).1 = Done tt /\
  document w' c =
    mkCanvasElement
      (stroke_bitmap covers k (put_image_data (bitmap (document w c)) saved 0 0))
      k (parentElement (document w c)) (rect_left (document w c))
      (rect_top (document w c)).
Proof.
  intros Hmode Hanchor Hsaved. unfold extend_gesture, bind, canvasRef_current.
  rewrite Hcanvas, Hmode, Hanchor, Hsaved.
  unfold putImageData, beginPath, assign_strokeStyle, assign_lineWidth, rect, arc,
    moveTo, lineTo, stroke, on_canvas.
  subst width_after k0. unfold shape_path.
  destruct (drawingMode r); try discriminate Hmode;
    cbn -[update_canvas stroke_bitmap put_image_data Z.pow];
    rewrite !document_update_same;
    unfold with_context, with_bitmap, set_lineWidth;
    cbn -[stroke_bitmap put_image_data Z.pow];
    destruct (0 <? brushSize r); split; reflexivity.
Qed.

End Gesture.



Lemma stroke_bitmap_inside (covers : Rasteriser) (k : Context2D) (b1 b2 : Bitmap) :
  same_pixels b1 b2 ->
  same_pixels (stroke_bitmap covers k b1) (stroke_bitmap covers k b2).
Proof.
  intros (Hw & Hh & Hpix). split; [exact Hw |]. split; [exact Hh |].
  intros u v. specialize (Hpix u v). unfold pixelAt, inside in *.
  cbn [stroke_bitmap width height pixel]. rewrite <- Hw, <- Hh in *.
  destruct ((0 <=? u) && (u <? width b1) && (0 <=? v) && (v <? height b1));
    [| reflexivity].
  rewrite Hpix. reflexivity.
Qed.

Lemma restore_saved_canvas (b drawn : Bitmap) :
  width drawn = width b -> height drawn = height b ->
  same_pixels
    (put_image_data drawn (get_image_data b 0 0 (width b) (height b)) 0 0) b.
Proof.
  intros Hw Hh. split; [exact Hw |]. split; [exact Hh |].
  intros u v. unfold pixelAt at 1. unfold inside at 1.
  cbn [put_image_data width height pixel]. rewrite Hw, Hh. fold (inside b u v).
  destruct (inside b u v) eqn:Hin; [| unfold pixelAt; rewrite Hin; reflexivity].
  rewrite !Z.sub_0_r.
  change (inside (get_image_data b 0 0 (width b) (height b)) u v) with (inside b u v).
  rewrite Hin. reflexivity.
Qed.

(** X13. A shape preview leaves no trail. With the canvas mounted and
    holding pixels, and a shape tool selected, after button down at the
    anchor and two moves the canvas shows the picture it held at button down
    with exactly one shape stroked over it, the one from the anchor to the
    last pointer position, in the chosen colour and brush size: nothing of
    the first preview remains. *)
Theorem shape_preview_leaves_no_trail (covers : Rasteriser) (w : World) (c : nat)
    (dx dy m1x m1y m2x m2y : Z) :
  canvasRef w = Some c ->
  is_freehand (drawingMode (state w)) = false ->
  0 < width (bitmap (document w c)) ->
  0 < height (bitmap (document w c)) ->
  let s := state w in
  let opened := handle covers w (onMouseDown (MouseEvent dx dy)) in
  let first := handle covers opened (onMouseMove (MouseEvent m1x m1y)) in
  let second := handle covers first (onMouseMove (MouseEvent m2x m2y)) in
  let origin cx cy :=
    mkPoint (cx - rect_left (document w c)) (cy - rect_top (document w c)) in
  let k0 := context (document w c) in
  let k := mkContext2D (fillStyle k0) (color s)
             (if 0 <? brushSize s then brushSize s else lineWidth k0)
             (lineCap k0) (lineJoin k0)
             (shape_path (drawingMode s) (origin dx dy) (origin m2x m2y)) in
  same_pixels (bitmap (document second c))
    (stroke_bitmap covers k (bitmap (document w c))).
Proof.
  intros Hcanvas Hmode Hw Hh s opened first second origin k0 k.
  assert (Hopened : opened = (begin_gesture s (origin dx dy) w).2).
  { subst opened. unfold handle, run. cbn [dispatch]. unfold startDrawing, bind at 1.
    rewrite (getCoordinates_mouse w c Hcanvas). reflexivity. }
  destruct (begin_gesture_shape w c Hcanvas s (origin dx dy) Hmode Hw Hh)
    as (_ & Hc1 & Hdoc1 & Hopen & Hdm & Hcolor & Hsize & Hanchor & Hsaved).
  rewrite <- Hopened in Hc1, Hdoc1, Hopen, Hdm, Hcolor, Hsize, Hanchor, Hsaved.
  assert (Hmode1 : is_freehand (drawingMode (state opened)) = false)
    by (rewrite Hdm; exact Hmode).
  (* first move *)
  assert (Hfirst : first = (extend_gesture covers (state opened) (origin m1x m1y) opened).2).
  { subst first. unfold handle, run. cbn [dispatch]. unfold draw. rewrite Hopen.
    cbn [negb]. unfold bind at 1. rewrite (getCoordinates_mouse opened c Hc1).
    rewrite Hdoc1. reflexivity. }
  destruct (extend_gesture_shape covers opened c Hc1 (state opened) _ (origin m1x m1y) _
              Hmode1 Hanchor Hsaved) as [_ Hdocf].
  rewrite <- Hfirst in Hdocf.
  assert (Hstate1 : state first = state opened)
    by (rewrite Hfirst; apply extend_gesture_state).
  assert (Hcf : canvasRef first = Some c)
    by (rewrite Hfirst, extend_gesture_canvasRef; exact Hc1).
  (* second move *)
  assert (Hsecond : second = (extend_gesture covers (state first) (origin m2x m2y) first).2).
  { subst second. unfold handle, run. cbn [dispatch]. unfold draw.
    rewrite Hstate1, Hopen. cbn [negb]. unfold bind at 1.
    rewrite (getCoordinates_mouse first c Hcf). rewrite Hdocf.
    cbn [rect_left rect_top]. rewrite Hdoc1. reflexivity. }
  rewrite Hstate1 in Hsecond.
  destruct (extend_gesture_shape covers first c Hcf (state opened) _ (origin m2x m2y) _
              Hmode1 Hanchor Hsaved) as [_ Hdocs].
  rewrite <- Hsecond in Hdocs.
  rewrite Hdocs. cbn [bitmap]. rewrite Hdocf. cbn [bitmap context lineWidth fillStyle
    lineCap lineJoin]. rewrite Hdoc1, Hcolor, Hsize, Hdm. fold s. fold k0.
  replace (if 0 <? brushSize s then brushSize s
           else if 0 <? brushSize s then brushSize s else lineWidth k0)
    with (if 0 <? brushSize s then brushSize s else lineWidth k0)
    by (destruct (0 <? brushSize s); reflexivity).
  apply stroke_bitmap_inside. apply restore_saved_canvas; reflexivity.
Qed.

Lemma shape_preview_leaves_no_trail_witness :
  let opened := handle plain_raster line_tool_world (onMouseDown (MouseEvent 10 10)) in
  let first := handle plain_raster opened (onMouseMove (MouseEvent 10 60)) in
  let second := handle plain_raster first (onMouseMove (MouseEvent 60 10)) in
  canvasRef line_tool_world = Some 0%nat /\
  is_freehand (drawingMode (state line_tool_world)) = false /\
  0 < width (bitmap (document line_tool_world 0)) /\
  0 < height (bitmap (document line_tool_world 0)) /\
  pixelAt (bitmap (document first 0)) 10 40 = black /\
  pixelAt (bitmap (document second 0)) 10 40 = white /\
  pixelAt (bitmap (document second 0)) 40 10 = black.
Proof.
  intros opened first second.
  assert (Hcanvas : canvasRef line_tool_world = Some 0%nat) by reflexivity.
  assert (Hmode : is_freehand (drawingMode (state line_tool_world)) = false)
    by reflexivity.
  assert (Hw : 0 < width (bitmap (document line_tool_world 0)))
    by (vm_compute; reflexivity).
  assert (Hh : 0 < height (bitmap (document line_tool_world 0)))
    by (vm_compute; reflexivity).
  destruct (shape_preview_leaves_no_trail plain_raster line_tool_world 0
              10 10 10 60 60 10 Hcanvas Hmode Hw Hh) as (_ & _ & Hpix).
  fold opened in Hpix. fold first in Hpix. fold second in Hpix.
  repeat (split; [assumption |]).
  split; [vm_compute; reflexivity |].
  split; rewrite Hpix; vm_compute; reflexivity.
Defined.



(** ** Resizing, mounting *)

Lemma handleResize_run (w : World) (c : nat) (newWidth newHeight : Z) :
  canvasRef w = Some c ->
  parentElement (document w c) = Some (newWidth, newHeight) ->
  0 < width (bitmap (document w c)) ->
  0 < height (bitmap (document w c)) ->
  handleResize w =
  (Done tt,
   update_canvas c (with_bitmap (fun b =>
       put_image_data b
         (get_image_data (bitmap (document w c)) 0 0
            (width (bitmap (document w c))) (height (bitmap (document w c)))) 0 0))
     (update_canvas c (assign_height newHeight)
        (update_canvas c (assign_width newWidth) w))).
Proof.
  intros Hcanvas Hparent Hw Hh.
  unfold handleResize, bind at 1, canvasRef_current.
  rewrite Hcanvas. unfold bind at 1, read. rewrite Hparent.
  unfold getImageData.
  destruct (Z.eqb_spec (width (bitmap (document w c))) 0) as [Hz | _]; [lia |].
  destruct (Z.eqb_spec (height (bitmap (document w c))) 0) as [Hz | _]; [lia |].
  reflexivity.
Qed.

(** X15. A canvas without pixels is stuck. With the canvas mounted in a
    container, when its width or its height is 0 [handleResize] throws
    [IndexSizeError] at [getImageData] before it assigns a size, so the world
    is what it was, whatever the size of the container, and every later
    resize does the same; a shape gesture started on such a canvas throws the
    same error after it has set [isDrawing]. *)
Theorem empty_canvas_is_stuck (w : World) (c : nat) (size : Z * Z) :
  canvasRef w = Some c ->
  parentElement (document w c) = Some size ->
  width (bitmap (document w c)) = 0 \/ height (bitmap (document w c)) = 0 ->
  handleResize w = (Thrown IndexSizeError, w) /\
  (forall n, Nat.iter n (fun w0 => (handleResize w0).2) w = w) /\
  (forall r p,
     is_freehand (drawingMode r) = false ->
     (begin_gesture r p w).1 = Thrown IndexSizeError /\
     isDrawing (state (begin_gesture r p w).2) = true).
Proof.
  intros Hcanvas Hparent Hempty.
  assert (Htest : (width (bitmap (document w c)) =? 0)
                  || (height (bitmap (document w c)) =? 0) = true).
  { apply orb_true_iff. destruct Hempty as [Hz | Hz]; [left | right];
      apply Z.eqb_eq; exact Hz. }
  assert (Hresize : handleResize w = (Thrown IndexSizeError, w)).
  { unfold handleResize, bind at 1, canvasRef_current.
    rewrite Hcanvas. unfold bind at 1, read. rewrite Hparent. destruct size as [cw ch].
    unfold bind, getImageData. rewrite Htest. reflexivity. }
  split; [exact Hresize |]. split.
  - induction n as [| n IH]; [reflexivity |].
    rewrite Nat.iter_succ, IH, Hresize. reflexivity.
  - intros r p Hmode. unfold begin_gesture, bind, setIsDrawing, setStartPoint, modify,
      canvasRef_current.
    cbn [fst snd with_state canvasRef]. rewrite Hmode, Hcanvas.
    unfold getImageData, read. cbn [document with_state]. rewrite Htest.
    split; reflexivity.
Qed.

Lemma empty_canvas_is_stuck_witness :
  canvasRef collapsed_world = Some 0%nat /\
  parentElement (document collapsed_world 0) = Some (100, 100) /\
  width (bitmap (document collapsed_world 0)) = 0 /\
  width (bitmap (document (handleResize collapsed_world).2 0)) = 0.
Proof.
  assert (Hcanvas : canvasRef collapsed_world = Some 0%nat) by reflexivity.
  assert (Hparent : parentElement (document collapsed_world 0) = Some (100, 100))
    by reflexivity.
  assert (Hzero : width (bitmap (document collapsed_world 0)) = 0)
    by (vm_compute; reflexivity).
  destruct (empty_canvas_is_stuck collapsed_world 0 (100, 100) Hcanvas Hparent
              (or_introl Hzero)) as [Hresize _].
  repeat (split; [assumption |]).
  rewrite Hresize. exact Hzero.
Defined.

(** X16. A resize interrupts an open stroke. With the canvas mounted in a
    container and holding pixels, [handleResize] leaves the React state alone
    but resets the 2D context: the path is emptied and the stroke style, line
    width, caps and joins are the defaults.  If a pen or eraser gesture was
    open, the next move only puts its point on the empty path and paints no
    pixel. *)
Theorem resize_interrupts_stroke (covers : Rasteriser) (w : World) (c : nat)
    (newWidth newHeight mx my : Z) :
  canvasRef w = Some c ->
  parentElement (document w c) = Some (newWidth, newHeight) ->
  0 < width (bitmap (document w c)) ->
  0 < height (bitmap (document w c)) ->
  isDrawing (state w) = true ->
  is_freehand (drawingMode (state w)) = true ->
  let resized := (handleResize w).2 in
  let moved := handle covers resized (onMouseMove (MouseEvent mx my)) in
  state resized = state w /\
  context (document resized c) = default_context /\
  path (context (document moved c))
  = [PLineTo (mkPoint (mx - rect_left (document w c)) (my - rect_top (document w c)))] /\
  (forall u v,
     pixel (bitmap (document moved c)) u v = pixel (bitmap (document resized c)) u v).
Proof.
  intros Hcanvas Hparent Hw Hh Hopen Hmode resized moved.
  pose proof (handleResize_run w c newWidth newHeight Hcanvas Hparent Hw Hh) as Hrun.
  assert (Hresized : resized = (handleResize w).2) by reflexivity.
  rewrite Hrun in Hresized. cbn [snd] in Hresized.
  assert (Hstate : state resized = state w) by (rewrite Hresized; reflexivity).
  assert (Hcr : canvasRef resized = Some c) by (rewrite Hresized; exact Hcanvas).
  assert (Hdoc : document resized c =
            mkCanvasElement
              (put_image_data (blank newWidth newHeight)
                 (get_image_data (bitmap (document w c)) 0 0
                    (width (bitmap (document w c))) (height (bitmap (document w c)))) 0 0)
              default_context (parentElement (document w c))
              (rect_left (document w c)) (rect_top (document w c))).
  { rewrite Hresized, !document_update_same. reflexivity. }
  assert (Hmoved : moved =
            (extend_gesture covers (state resized)
               (mkPoint (mx - rect_left (document w c)) (my - rect_top (document w c)))
               resized).2).
  { subst moved. unfold handle, run. cbn [dispatch]. unfold draw.
    rewrite Hstate, Hopen. cbn [negb]. unfold bind at 1.
    rewrite (getCoordinates_mouse resized c Hcr). rewrite Hdoc. reflexivity. }
  rewrite (extend_gesture_freehand covers resized c Hcr) in Hmoved
    by (rewrite Hstate; exact Hmode).
  cbn [snd] in Hmoved.
  split; [exact Hstate |].
  split; [rewrite Hdoc; reflexivity |].
  split.
  - rewrite Hmoved, !document_update_same, Hdoc. reflexivity.
  - intros u v. rewrite Hmoved, !document_update_same, Hdoc. reflexivity.
Qed.

Lemma resize_interrupts_stroke_witness :
  let w := set_container (200, 50) 0 gesture_world in
  let resized := (handleResize w).2 in
  let moved := handle plain_raster resized (onMouseMove (MouseEvent 40 40)) in
  canvasRef w = Some 0%nat /\
  isDrawing (state w) = true /\
  path (context (document w 0)) = [PMoveTo (mkPoint 10 10)] /\
  path (context (document moved 0)) = [PLineTo (mkPoint 40 40)] /\
  pixelAt (bitmap (document moved 0)) 25 25 = white.
Proof.
  intros w resized moved.
  assert (Hcanvas : canvasRef w = Some 0%nat) by reflexivity.
  assert (Hparent : parentElement (document w 0) = Some (200, 50)) by reflexivity.
  assert (Hw : 0 < width (bitmap (document w 0))) by (vm_compute; reflexivity).
  assert (Hh : 0 < height (bitmap (document w 0))) by (vm_compute; reflexivity).
  assert (Hopen : isDrawing (state w) = true) by reflexivity.
  assert (Hmode : is_freehand (drawingMode (state w)) = true) by reflexivity.
  destruct (resize_interrupts_stroke plain_raster w 0 200 50 40 40
              Hcanvas Hparent Hw Hh Hopen Hmode) as (_ & _ & Hpath & _).
  fold resized in Hpath. fold moved in Hpath.
  split; [exact Hcanvas |]. split; [exact Hopen |].
  split; [vm_compute; reflexivity |].
  split; [rewrite Hpath; vm_compute; reflexivity | vm_compute; reflexivity].
Defined.

(** X17. Without a mounted canvas nothing is drawn and nothing is recorded:
    when [canvasRef.current] is null, [saveToHistory], [redrawCanvas],
    [handleClearCanvas], [handleResize], the mount effect, an image load and
    a move of an open gesture all return normally and leave the world as it
    is; [getCoordinates] answers the point (0, 0); and [stopDrawing] closes
    an open gesture without committing an entry. *)
Theorem unmounted_canvas_is_never_touched (covers : Rasteriser) (r : State) (w : World) :
  canvasRef w = None ->
  saveToHistory r w = (Done tt, w) /\
  redrawCanvas r w = (Done tt, w) /\
  handleClearCanvas r w = (Done tt, w) /\
  handleResize w = (Done tt, w) /\
  initialize r w = (Done tt, w) /\
  (forall img, onload img w = (Done tt, w)) /\
  (forall p, extend_gesture covers r p w = (Done tt, w)) /\
  (forall mx my, getCoordinates (MouseEvent mx my) w = (Done (mkPoint 0 0), w)) /\
  (isDrawing r = true ->
   (stopDrawing r w).1 = Done tt /\
   isDrawing (state (stopDrawing r w).2) = false /\
   shapePreviewImage (state (stopDrawing r w).2) = None /\
   history (state (stopDrawing r w).2) = history (state w) /\
   historyIndex (state (stopDrawing r w).2) = historyIndex (state w)).
Proof.
  intros Hnone.
  assert (Hsave : forall w0, canvasRef w0 = None -> saveToHistory r w0 = (Done tt, w0)).
  { intros w0 H0. unfold saveToHistory, bind, canvasRef_current. rewrite H0. reflexivity. }
  split; [apply Hsave; exact Hnone |].
  split; [unfold redrawCanvas, bind, canvasRef_current; rewrite Hnone; reflexivity |].
  split; [unfold handleClearCanvas, bind, canvasRef_current; rewrite Hnone; reflexivity |].
  split; [unfold handleResize, bind, canvasRef_current; rewrite Hnone; reflexivity |].
  split; [unfold initialize, bind, canvasRef_current; rewrite Hnone; reflexivity |].
  split; [intros img; unfold onload, bind, canvasRef_current; rewrite Hnone; reflexivity |].
  split; [intros p; unfold extend_gesture, bind, canvasRef_current; rewrite Hnone;
          reflexivity |].
  split; [intros mx my; unfold getCoordinates, bind, canvasRef_current; cbn [ret];
          rewrite Hnone; reflexivity |].
  intros Hopen. unfold stopDrawing. rewrite Hopen.
  pose (closed := ((setIsDrawing false >> setShapePreviewImage None) w).2).
  change ((setIsDrawing false >> setShapePreviewImage None >> saveToHistory r) w)
    with (saveToHistory r closed).
  rewrite (Hsave closed) by exact Hnone. repeat split.
Qed.

Lemma unmounted_canvas_is_never_touched_witness :
  canvasRef unmounted_world = None /\
  run saveToHistory unmounted_world = (Done tt, unmounted_world) /\
  run initialize unmounted_world = (Done tt, unmounted_world).
Proof.
  assert (Hnone : canvasRef unmounted_world = None) by reflexivity.
  destruct (unmounted_canvas_is_never_touched plain_raster (state unmounted_world)
              unmounted_world Hnone) as (Hsave & _ & _ & _ & Hinit & _).
  split; [exact Hnone |]. split; [exact Hsave | exact Hinit].
Defined.

Lemma map_index_untouched {A} (f : A -> Z -> A) (k : Z) (l : list A) :
  (forall a i, k <= i -> f a i = a) -> map_index f k l = l.
Proof.
  revert k. induction l as [| a l IH]; intros k Hf; [reflexivity |].
  simpl. rewrite Hf by lia. rewrite IH; [reflexivity |].
  intros a' i Hi. apply Hf. lia.
Qed.

(** X18. Opening the editor. With the canvas mounted in a container and a
    well-formed log, the mount effect throws nothing, gives the canvas the
    client size of the container and leaves it entirely opaque white, hands
    the canvas to the first layer when that layer has none (every other
    layer is kept as it is), and commits the white canvas as one entry after
    the cursor. *)
Theorem initialize_opens_white_canvas (w : World) (c : nat) (clientWidth clientHeight : Z) :
  canvasRef w = Some c ->
  parentElement (document w c) = Some (clientWidth, clientHeight) ->
  log_ok (state w) ->
  let s := state w in
  let w' := (run initialize w).2 in
  (run initialize w).1 = Done tt /\
  same_pixels (bitmap (document w' c)) (all_white clientWidth clientHeight) /\
  history (state w') =
    take (Z.to_nat (historyIndex s + 1)) (history s) ++ [bitmap (document w' c)] /\
  historyIndex (state w') = historyIndex s + 1 /\
  (forall layer rest,
     layers s = layer :: rest ->
     layers (state w') =
       mkLayer (id layer) (name layer) (visible layer) (Some (default c (canvas layer)))
       :: rest).
Proof.
  intros Hcanvas Hparent Hlog s w'. unfold log_ok in Hlog. fold s in Hlog.
  pose (sized := update_canvas c (assign_height clientHeight)
                   (update_canvas c (assign_width clientWidth) w)).
  pose (filled := update_canvas c
          (fun cv => with_bitmap (fun b =>
             fill_rect (fillStyle (context cv)) b 0 0 clientWidth clientHeight) cv)
          (update_canvas c (with_context (set_fillStyle white)) sized)).
  pose (adopt := fun prevLayers : list Layer =>
          map_index (fun layer index =>
            if (index =? 0) && negb (bool_decide (is_Some (canvas layer)))
            then mkLayer (id layer) (name layer) (visible layer) (Some c)
            else layer) 0 prevLayers).
  pose (adopted := (setLayers adopt filled).2).
  assert (Hrun : run initialize w = saveToHistory s adopted).
  { unfold run, initialize, bind, canvasRef_current, read. rewrite Hcanvas.
    cbn -[update_canvas saveToHistory map_index fill_rect bool_decide].
    rewrite Hparent.
    cbn -[update_canvas saveToHistory map_index fill_rect bool_decide].
    rewrite !document_update_same.
    cbn -[update_canvas saveToHistory map_index fill_rect bool_decide].
    reflexivity. }
  assert (Hadopted : canvasRef adopted = Some c) by exact Hcanvas.
  destruct (saveToHistory_effect s adopted c Hadopted)
    as (Hdone & Hhist & Hcur & _ & Hlayers & _ & Hdoc & _).
  rewrite <- Hrun in Hdone, Hhist, Hcur, Hlayers, Hdoc.
  fold w' in Hhist, Hcur, Hlayers, Hdoc.
  assert (Hbitmap : bitmap (document w' c) = bitmap (document filled c))
    by (rewrite Hdoc; reflexivity).
  split; [exact Hdone |].
  split.
  { rewrite Hbitmap. subst filled sized. rewrite !document_update_same.
    split; [reflexivity |]. split; [reflexivity |].
    intros u v. unfold pixelAt, inside. cbn -[source_over in_rect].
    unfold in_rect. rewrite !Z.add_0_l.
    destruct ((0 <=? u) && (u <? clientWidth) && (0 <=? v) && (v <? clientHeight));
      [apply white_over | reflexivity]. }
  split.
  { rewrite Hhist, Hbitmap. change (history (state adopted)) with (history s). f_equal.
    destruct (Z.ltb_spec (historyIndex s) (Z.of_nat (length (history s)) - 1)).
    - apply slice_prefix. lia.
    - rewrite take_ge by lia. reflexivity. }
  split; [exact Hcur |].
  intros layer rest Hstack. rewrite Hlayers.
  change (layers (state adopted)) with (adopt (layers s)).
  rewrite Hstack. subst adopt. cbn [map_index]. rewrite Z.eqb_refl. cbn [andb].
  rewrite map_index_untouched.
  - destruct layer as [lid lname lvisible [lc |]]; reflexivity.
  - intros a i Hi. destruct (Z.eqb_spec i 0); [lia | reflexivity].
Qed.

Lemma initialize_opens_white_canvas_witness :
  canvasRef landing_world = Some 0%nat /\
  parentElement (document landing_world 0) = Some (100, 100) /\
  log_ok (state landing_world) /\
  length (history (state editor_world)) = 1%nat /\
  historyIndex (state editor_world) = 0 /\
  map canvas (layers (state editor_world)) = [Some 0%nat] /\
  pixelAt (bitmap (document editor_world 0)) 99 99 = white.
Proof.
  assert (Hcanvas : canvasRef landing_world = Some 0%nat) by reflexivity.
  assert (Hparent : parentElement (document landing_world 0) = Some (100, 100))
    by reflexivity.
  assert (Hlog : log_ok (state landing_world)) by (unfold log_ok; simpl; lia).
  destruct (initialize_opens_white_canvas landing_world 0 100 100 Hcanvas Hparent Hlog)
    as (_ & (_ & _ & Hpix) & Hhist & Hcur & Hlayers).
  fold editor_world in Hpix, Hhist, Hcur, Hlayers.
  repeat (split; [assumption |]).
  split; [rewrite Hhist; reflexivity |].
  split; [rewrite Hcur; reflexivity |].
  split; [rewrite (Hlayers _ _ eq_refl); reflexivity |].
  rewrite Hpix. vm_compute. reflexivity.
Defined.

(** X19. [deleteLayer] with an index that names no layer. On a stack of more
    than one layer, an index below 0 or at or beyond the length removes
    nothing; an index beyond the stack also leaves a valid active index where
    it is, but a negative one still lowers the active index by one (not below
    0), since the handler compares the index with the active index before
    anything tells it whether a layer was removed. *)
Theorem deleteLayer_index_out_of_range (w : World) (index : Z) :
  let s := state w in
  let n := Z.of_nat (length (layers s)) in
  let s' := state (run (fun r => deleteLayer r index) w).2 in
  1 < n ->
  (index < 0 \/ n <= index -> layers s' = layers s) /\
  (n <= index -> activeLayerIndex s < n -> activeLayerIndex s' = activeLayerIndex s) /\
  (index < 0 -> 0 <= activeLayerIndex s ->
   activeLayerIndex s' = Z.max 0 (activeLayerIndex s - 1)).
Proof.
  intros s n s' Hmany.
  destruct (deleteLayer_state w index Hmany) as [Hl Ha].
  fold s' in Hl, Ha. fold s in Hl, Ha. split; [| split].
  - intros [Hneg | Hbeyond]; rewrite Hl.
    + apply filter_index_keeps_all. exact Hneg.
    + apply filter_index_beyond. fold s. fold n. lia.
  - intros Hbeyond Hactive. rewrite Ha.
    destruct (Z.leb_spec index (activeLayerIndex s)); [lia | reflexivity].
  - intros Hneg Hactive. rewrite Ha.
    destruct (Z.leb_spec index (activeLayerIndex s)); [reflexivity | lia].
Qed.

Lemma deleteLayer_index_out_of_range_witness :
  1 < Z.of_nat (length (layers (state two_layer_world))) /\
  layer_ids (run (fun r => deleteLayer r (-1)) two_layer_world).2
  = ["layer-1"; "layer-2"] /\
  activeLayerIndex (state two_layer_world) = 1 /\
  activeLayerIndex (state (run (fun r => deleteLayer r (-1)) two_layer_world).2) = 0.
Proof.
  assert (Hmany : 1 < Z.of_nat (length (layers (state two_layer_world))))
    by (simpl; lia).
  destruct (deleteLayer_index_out_of_range two_layer_world (-1) Hmany)
    as (Hlayers & _ & Hactive).
  split; [exact Hmany |].
  split; [unfold layer_ids; rewrite Hlayers by (left; lia); reflexivity |].
  split; [reflexivity |].
  rewrite Hactive by (simpl; lia). reflexivity.
Defined.
